(** * Aura Coach: the live session metrics engine

    A shallow embedding of the training page (TrainingPage) and of the
    application shell (App) of the Aura Coach front end, and the
    properties of the live-session pipeline proved over it.

    Conventions of the embedding.
    - A JavaScript number is a rational [Q] where the code computes with
      fractions (landmark coordinates, audio samples, elapsed minutes) and
      an integer [Z] where the code only ever stores integers.  Every
      double is a rational; where the code's double operation is exact
      (a float32 sample times 32767, the +-180 shift of an angle) the
      embedding is exact too, elsewhere (the division of the word count by
      the elapsed minutes) the rounding error of the double is idealised
      away.
    - [Math.atan2] is not computed: the angle it returns is an input of
      the pose handler.
    - A string is a string of ASCII characters: case conversion and the
      white space of [\s] are those of ASCII.
    - React state is updated at once by each callback; one callback body
      runs at a time. *)

From Stdlib Require Import ZArith QArith Qround Qabs List String Ascii Bool Lia Lqa.
Import ListNotations.

Set Implicit Arguments.

Open Scope string_scope.
Open Scope list_scope.
Open Scope Z_scope.

(* ================================================================== *)
(** ** JavaScript number conversions *)

Module JsNum.

Local Open Scope Q_scope.

(** [Math.round]: the nearest integer, a tie going up. *)
Definition Math_round (q : Q) : Z := Qfloor (q + (1 # 2)).

(** [Number(q.toFixed(0))]: the nearest integer, a tie going away from
    zero (toFixed formats the absolute value and puts the sign back). *)
Definition toFixed0 (q : Q) : Z :=
  if Qlt_le_dec q 0 then (- Qfloor (- q + (1 # 2)))%Z
  else Qfloor (q + (1 # 2)).

(** Truncation toward zero, the first step of every typed-array store. *)
Definition Qtrunc (q : Q) : Z := Z.quot (Qnum q) (Zpos (Qden q)).

(** Wrap an integer into the signed 16-bit range. *)
Definition wrap16 (z : Z) : Z :=
  let m := (z mod 65536)%Z in
  if (32768 <=? m)%Z then (m - 65536)%Z else m.

(** The store [pcm16[i] = q] into an [Int16Array] (ToInt16 of a finite
    number): truncate, then wrap modulo 2^16. *)
Definition toInt16 (q : Q) : Z := wrap16 (Qtrunc q).

Definition Math_max (a b : Q) : Q := if Qlt_le_dec a b then b else a.

End JsNum.

(* ================================================================== *)
(** ** The metrics record *)

Record Metrics := mkMetrics {
  posture    : Z;
  headTilt   : Z;
  eyeContact : string;
  emotion    : string;
  wpm        : Z;
  fillers    : Z;
  volume     : Z;
  pitch      : Z;
  tone       : string
}.

(** The initial value of [useState] in TrainingPage. *)
Definition defaultMetrics : Metrics :=
  {| posture := 0; headTilt := 0; eyeContact := "Unknown";
     emotion := "Detecting..."; wpm := 0; fillers := 0;
     volume := 0; pitch := 0; tone := "Neutral" |}.

(* ================================================================== *)
(** ** Pose analyzer: [pose.onResults] *)

Module Pose.

Import JsNum.
Local Open Scope Q_scope.

Record Landmark := mkLandmark { lx : Q; ly : Q }.

(** [res.poseLandmarks] is absent or an array of landmarks. *)
Record Results := mkResults { poseLandmarks : option (list Landmark) }.

(** The two [if]s that bring the raw shoulder-line angle near zero. *)
Definition shiftTilt (rawTilt : Q) : Q :=
  let r1 := if Qlt_le_dec 90 rawTilt then rawTilt - 180 else rawTilt in
  if Qlt_le_dec r1 (-90) then r1 + 180 else r1.

(** [headTilt = Number(rawTilt.toFixed(0))] after the shift. *)
Definition normalizeTilt (rawTilt : Q) : Z := toFixed0 (shiftTilt rawTilt).

Definition postureScore (L R : Landmark) : Q :=
  let shoulderTilt := (ly R - ly L) * 100 in
  Math_max 0 (100 - Qabs shoulderTilt * 4).

Definition eyeContactOf (nose : Landmark) : string :=
  if Qlt_le_dec (Qabs (lx nose - (1 # 2))) (5 # 100) then "Good"
  else "Looking Away".

(** The handler.  [atan2deg] is the value of
    [Math.atan2(R.y - L.y, R.x - L.x) * (180 / Math.PI)] for this frame. *)
Definition onResults (atan2deg : Q) (res : Results) (prev : Metrics)
  : Metrics :=
  match poseLandmarks res with
  | None => prev
  | Some lm =>
      match nth_error lm 11, nth_error lm 12, nth_error lm 0 with
      | Some L, Some R, Some nose =>
          {| posture := toFixed0 (postureScore L R);
             headTilt := normalizeTilt atan2deg;
             eyeContact := eyeContactOf nose;
             emotion := emotion prev; wpm := wpm prev;
             fillers := fillers prev; volume := volume prev;
             pitch := pitch prev; tone := tone prev |}
      | _, _, _ => prev
      end
  end.

End Pose.

(* ================================================================== *)
(** ** Audio uplink: [processor.onaudioprocess] *)

Module Uplink.

Import JsNum.
Local Open Scope Q_scope.

Inductive ReadyState := CONNECTING | OPEN | CLOSING | CLOSED.

Definition isOpen (r : ReadyState) : bool :=
  match r with OPEN => true | _ => false end.

(** [pcm16[i] = input[i] * 0x7fff] *)
Definition pcm16_sample (x : Q) : Z := toInt16 (x * 32767).

(** The frame sent for one chunk, or nothing when the socket is not
    open. *)
Definition onaudioprocess (readyState : ReadyState) (input : list Q)
  : option (list Z) :=
  if isOpen readyState then Some (map pcm16_sample input) else None.

(** The conversion as the specification words it: [round(x * 32767)]. *)
Definition spec_pcm16_sample (x : Q) : Z := Math_round (x * 32767).

(** Reading a sent sample back. *)
Definition pcm16_to_float (z : Z) : Q := inject_Z z / 32767.

End Uplink.

(* ================================================================== *)
(** ** Speech transcriber and linguistic metrics: [recognition.onresult] *)

Module Speech.

Import JsNum.

(** The variables closed over by the handler of one recognition
    object: [wordCount], [fillerCount] and [startTime]. *)
Record Acc := mkAcc {
  wordCount   : Z;
  fillerCount : Z;
  startTime   : Z
}.

(** A result event: [resultIndex] and, for every entry of [results],
    the transcript of its first alternative. *)
Record ResultEvent := mkResultEvent {
  resultIndex : nat;
  results     : list string
}.

(** The constant [fillers] of the source (the name is taken by the
    field of the metrics record). *)
Definition fillerLexicon : list string :=
  ["um"; "uh"; "like"; "basically"; "you know"].

Definition lowerAscii (c : ascii) : ascii :=
  let n := nat_of_ascii c in
  if (65 <=? n)%nat && (n <=? 90)%nat then ascii_of_nat (n + 32) else c.

Fixpoint toLowerCase (s : string) : string :=
  match s with
  | EmptyString => EmptyString
  | String c r => String (lowerAscii c) (toLowerCase r)
  end.

(** The ASCII members of the class [\s]. *)
Definition isSpace (c : ascii) : bool :=
  let n := nat_of_ascii c in
  ((9 <=? n)%nat && (n <=? 13)%nat) || (n =? 32)%nat.

(** [s.split(/\s+/).filter(Boolean)]: the maximal runs of characters
    that are not white space.  [cur] is the run being read. *)
Fixpoint splitWords (cur : string) (s : string) : list string :=
  match s with
  | EmptyString =>
      match cur with EmptyString => [] | _ => [cur] end
  | String c r =>
      if isSpace c then
        match cur with
        | EmptyString => splitWords EmptyString r
        | _ => cur :: splitWords EmptyString r
        end
      else splitWords (cur ++ String c EmptyString)%string r
  end.

Definition includes (l : list string) (w : string) : bool :=
  existsb (String.eqb w) l.

(** The transcript of one batch: the entries from [resultIndex] on,
    lower-cased and concatenated. *)
Definition transcriptOf (ev : ResultEvent) : string :=
  fold_left (fun t r => (t ++ toLowerCase r)%string)
            (skipn (resultIndex ev) (results ev)) EmptyString.

Definition wordsOf (ev : ResultEvent) : list string :=
  splitWords EmptyString (transcriptOf ev).

(** The accumulators after the batch. *)
Definition accumulate (acc : Acc) (ev : ResultEvent) : Acc :=
  let words := wordsOf ev in
  {| wordCount := wordCount acc + Z.of_nat (List.length words);
     fillerCount :=
       fillerCount acc + Z.of_nat (List.length (filter (includes fillerLexicon) words));
     startTime := startTime acc |}.

(** [wpm] from the accumulators at time [now] (milliseconds). *)
Definition wpmAt (acc : Acc) (now : Z) : Z :=
  let elapsedMinutes := ((now - startTime acc) # 60000)%Q in
  if Qlt_le_dec 0 elapsedMinutes
  then Math_round (inject_Z (wordCount acc) / elapsedMinutes)
  else 0.

(** The guard against music: fewer than 3 words and a pace below 40. *)
Definition rejected (ev : ResultEvent) (wpm : Z) : bool :=
  (List.length (wordsOf ev) <? 3)%nat && (wpm <? 40).

(** The handler: the accumulators and the metrics record after the
    batch delivered at time [now]. *)
Definition onresult (acc : Acc) (ev : ResultEvent) (now : Z) (prev : Metrics)
  : Acc * Metrics :=
  let acc' := accumulate acc ev in
  let wpm' := wpmAt acc' now in
  if rejected ev wpm' then (acc', prev)
  else (acc',
        {| posture := posture prev; headTilt := headTilt prev;
           eyeContact := eyeContact prev; emotion := emotion prev;
           wpm := wpm'; fillers := fillerCount acc';
           volume := volume prev; pitch := pitch prev; tone := tone prev |}).

End Speech.

(* ================================================================== *)
(** ** Expression sampler: the callback of [emotionInterval] *)

Module Expression.

(** [detections.expressions]: label and confidence, in key order. *)
Definition Expressions := list (string * Q).

(** The first part of the callback, up to the [await]: does this tick
    start a classification?  [video] is [videoEl] with its
    [readyState], or [None] when there is no element. *)
Definition tickStarts (isSessionActive : bool) (video : option Z) : bool :=
  match video with
  | None => false
  | Some readyState => isSessionActive && negb (readyState <? 2)
  end.

(** Stable insertion by decreasing confidence, the order given by the
    comparator [(a,b) => b[1]-a[1]]. *)
Fixpoint insertDesc (x : string * Q) (l : Expressions) : Expressions :=
  match l with
  | [] => [x]
  | y :: ys => if Qle_bool (snd x) (snd y) then y :: insertDesc x ys
               else x :: y :: ys
  end.

Definition sortDesc (l : Expressions) : Expressions :=
  fold_left (fun acc x => insertDesc x acc) l [].

Definition upperAscii (c : ascii) : ascii :=
  let n := nat_of_ascii c in
  if (97 <=? n)%nat && (n <=? 122)%nat then ascii_of_nat (n - 32) else c.

(** [e.charAt(0).toUpperCase() + e.slice(1)] *)
Definition capitalize (e : string) : string :=
  match e with
  | EmptyString => EmptyString
  | String c r => String (upperAscii c) r
  end.

(** The rest of the callback, after the classification has completed
    with [detections] ([None]: no face).  An empty expression table
    makes [sorted[0][0]] throw, and nothing is written. *)
Definition completed (detections : option Expressions) (prev : Metrics)
  : Metrics :=
  match detections with
  | None => prev
  | Some expressions =>
      match sortDesc expressions with
      | [] => prev
      | (e, _) :: _ =>
          {| posture := posture prev; headTilt := headTilt prev;
             eyeContact := eyeContact prev; emotion := capitalize e;
             wpm := wpm prev; fillers := fillers prev;
             volume := volume prev; pitch := pitch prev; tone := tone prev |}
      end
  end.

End Expression.

(* ================================================================== *)
(** ** Live tips *)

Module Tips.

Inductive Tip :=
| StraightenPosture | MaintainEyeContact | SpeakLouder
| ReduceFillers | GreatEnergy.

Definition when (b : bool) (t : Tip) : list Tip := if b then [t] else [].

(** The live-tips block of the render function, top to bottom. *)
Definition liveTips (m : Metrics) : list Tip :=
  when (posture m <? 60) StraightenPosture
  ++ when (negb (String.eqb (eyeContact m) "Good")) MaintainEyeContact
  ++ when (volume m <? 10) SpeakLouder
  ++ when (5 <? fillers m) ReduceFillers
  ++ when (String.eqb (tone m) "Energetic") GreatEnergy.

End Tips.

(* ================================================================== *)
(** ** Teardown: [stopAudioStreaming] and [stopSpeechRecognition]

    The platform objects are seen through the calls made on them.  A
    call may throw; which calls do is given by a fault oracle.  The refs
    of the component and the log of the calls attempted so far are
    threaded through a small state-and-exception monad. *)

Module Teardown.

(** Platform objects are named by numbers. *)
Inductive Call :=
| WsClose (ws : nat)
| TrackStop (track : nat)
| ProcessorDisconnect (processor : nat)
| AudioCtxClose (audioCtx : nat)
| RecognitionStop (recognition : nat).

(** The [current] field of each [useRef]; a media stream is the list
    of its tracks. *)
Record Refs := mkRefs {
  recognitionRef : option nat;
  wsRef          : option nat;
  audioCtxRef    : option nat;
  processorRef   : option nat;
  audioStreamRef : option (list nat)
}.

Definition noRefs : Refs := mkRefs None None None None None.

(** Refs, and the calls attempted so far (oldest first). *)
Record Env := mkEnv { refs : Refs; calls : list Call }.

Inductive Completion (A : Type) :=
| Normal (a : A)
| Thrown.
Arguments Thrown {A}.

Definition JS (A : Type) : Type := Env -> Completion A * Env.

Definition ret {A} (a : A) : JS A := fun e => (Normal a, e).

Definition bind {A B} (m : JS A) (k : A -> JS B) : JS B :=
  fun e => match m e with
           | (Normal a, e') => k a e'
           | (Thrown, e') => (Thrown, e')
           end.

Notation "m ;; k" := (bind m (fun _ => k))
  (at level 61, right associativity).

(** [try { body } catch (e) { handler }] *)
Definition tryCatch {A} (body handler : JS A) : JS A :=
  fun e => match body e with
           | (Normal a, e') => (Normal a, e')
           | (Thrown, e') => handler e'
           end.

(** [try { body } finally { fin }] *)
Definition tryFinally {A} (body : JS A) (fin : JS unit) : JS A :=
  fun e => match body e with
           | (r, e') =>
               match fin e' with
               | (Normal _, e'') => (r, e'')
               | (Thrown, e'') => (Thrown, e'')
               end
           end.

(** [ref.current?.method()] *)
Definition optional {A} (ref : Refs -> option A) (k : A -> JS unit)
  : JS unit :=
  fun e => match ref (refs e) with
           | Some h => k h e
           | None => (Normal tt, e)
           end.

Fixpoint forEach {A} (f : A -> JS unit) (l : list A) : JS unit :=
  match l with
  | [] => ret tt
  | x :: r => f x ;; forEach f r
  end.

Definition setRefs (f : Refs -> Refs) : JS unit :=
  fun e => (Normal tt, {| refs := f (refs e); calls := calls e |}).

Definition clearAudioRefs (r : Refs) : Refs :=
  {| recognitionRef := recognitionRef r; wsRef := None;
     audioCtxRef := None; processorRef := None; audioStreamRef := None |}.

Definition clearRecognitionRef (r : Refs) : Refs :=
  {| recognitionRef := None; wsRef := wsRef r;
     audioCtxRef := audioCtxRef r; processorRef := processorRef r;
     audioStreamRef := audioStreamRef r |}.

Section WithFaults.

(** The calls that throw. *)
Variable throws : Call -> bool.

Definition call (c : Call) : JS unit :=
  fun e =>
    (if throws c then Thrown else Normal tt,
     {| refs := refs e; calls := calls e ++ [c] |}).

(** [console.warn] in the handler returns normally. *)
Definition stopAudioStreaming : JS unit :=
  tryFinally
    (tryCatch
       (optional wsRef (fun ws => call (WsClose ws)) ;;
        optional audioStreamRef
          (forEach (fun t => call (TrackStop t))) ;;
        optional processorRef (fun p => call (ProcessorDisconnect p)) ;;
        optional audioCtxRef (fun c => call (AudioCtxClose c)))
       (ret tt))
    (setRefs clearAudioRefs).

Definition stopSpeechRecognition : JS unit :=
  fun e => match recognitionRef (refs e) with
           | Some r =>
               (call (RecognitionStop r) ;; setRefs clearRecognitionRef) e
           | None => (Normal tt, e)
           end.

End WithFaults.

(** The calls a full teardown of [r] makes, in order. *)
Definition audioTeardownCalls (r : Refs) : list Call :=
  match wsRef r with Some ws => [WsClose ws] | None => [] end
  ++ match audioStreamRef r with
     | Some ts => map TrackStop ts | None => [] end
  ++ match processorRef r with
     | Some p => [ProcessorDisconnect p] | None => [] end
  ++ match audioCtxRef r with
     | Some c => [AudioCtxClose c] | None => [] end.

(** No platform call throws. *)
Definition noFault : Call -> bool := fun _ => false.

(** A computation that never writes a ref. *)
Definition keepsRefs {A} (m : JS A) : Prop :=
  forall e, refs (snd (m e)) = refs e.

End Teardown.

(* ================================================================== *)
(** ** The training page and the application shell as an event system

    One mounted training view, from its mount to the switch to the
    report view.  The state holds the React state of App and of
    TrainingPage, the refs, the closures that outlive a callback and the
    asynchronous work in flight; an event is one callback run by the
    host.  In this part the platform's teardown calls return normally,
    as a browser's [close], [stop] and [disconnect] do. *)

Module Session.

Import Teardown.

Inductive View := home | training | report | history.

(** The body of a request to the session-log endpoint:
    [JSON.stringify] of the metrics, with [session_id] when the object
    was extended with it. *)
Record Payload := mkPayload {
  body       : Metrics;
  session_id : option string
}.

(** The WebSocket created by [startAudioStreaming], with the [sid]
    its [onopen] handler closes over. *)
Record Socket := mkSocket {
  socketRef  : nat;
  socketSid  : string;
  readyState : Uplink.ReadyState
}.

Inductive WsMessage :=
| Bind (sid : string)
| Frame (pcm16 : list Z).

(** State of App.  [sessionData] is [None] for the placeholder object
    of its [useState]. *)
Record App := mkApp {
  view         : View;
  sessionData  : option Payload;
  appSessionId : option string
}.

(** State of TrainingPage. *)
Record Page := mkPage {
  metrics         : Metrics;
  isSessionActive : bool;
  sessionId       : option string;
  error           : option string
}.

(** Closures and asynchronous work in flight. *)
Record Flight := mkFlight {
  recognition     : option Speech.Acc;  (* the latest recognition object *)
  socket          : option Socket;      (* the latest WebSocket *)
  poseInFlight    : nat;                (* pose.send not yet answered *)
  emotionInFlight : nat;                (* classifications not yet completed *)
  micPending      : nat;                (* getUserMedia not yet settled *)
  logPending      : list Metrics;       (* fetches of handleSessionToggle *)
  endPending      : list Payload        (* fetches of handleEndSession *)
}.

(** What the outside sees. *)
Record Output := mkOutput {
  requests : list Payload;     (* POSTs to /api/session/log, oldest first *)
  sent     : list WsMessage;   (* messages on the audio socket *)
  alerts   : list string
}.

Record World := mkWorld {
  app     : App;
  page    : Page;
  env     : Env;
  flight  : Flight;
  out     : Output;
  nextRef : nat
}.

Definition init : World :=
  {| app := mkApp training None None;
     page := mkPage defaultMetrics false None None;
     env := mkEnv noRefs [];
     flight := mkFlight None None 0 0 0 [] [];
     out := mkOutput [] [] [];
     nextRef := 0 |}.

(** TrainingPage is mounted while the view is the training view; the
    setters of an unmounted component do nothing. *)
Definition mounted (w : World) : bool :=
  match view (app w) with training => true | _ => false end.

Definition withApp (f : App -> App) (w : World) : World :=
  mkWorld (f (app w)) (page w) (env w) (flight w) (out w) (nextRef w).
Definition withPage (f : Page -> Page) (w : World) : World :=
  if mounted w
  then mkWorld (app w) (f (page w)) (env w) (flight w) (out w) (nextRef w)
  else w.
Definition withEnv (f : Env -> Env) (w : World) : World :=
  mkWorld (app w) (page w) (f (env w)) (flight w) (out w) (nextRef w).
Definition withRefs (f : Refs -> Refs) : World -> World :=
  withEnv (fun e => mkEnv (f (refs e)) (calls e)).
Definition withFlight (f : Flight -> Flight) (w : World) : World :=
  mkWorld (app w) (page w) (env w) (f (flight w)) (out w) (nextRef w).
Definition withOut (f : Output -> Output) (w : World) : World :=
  mkWorld (app w) (page w) (env w) (flight w) (f (out w)) (nextRef w).
Definition fresh (n : nat) (w : World) : World :=
  mkWorld (app w) (page w) (env w) (flight w) (out w) (nextRef w + n)%nat.

(** *** React setters *)

Definition setMetrics (f : Metrics -> Metrics) : World -> World :=
  withPage (fun p =>
    mkPage (f (metrics p)) (isSessionActive p) (sessionId p) (error p)).
Definition setIsSessionActive (b : bool) : World -> World :=
  withPage (fun p => mkPage (metrics p) b (sessionId p) (error p)).
Definition setSessionId (s : option string) : World -> World :=
  withPage (fun p => mkPage (metrics p) (isSessionActive p) s (error p)).
Definition setError (s : string) : World -> World :=
  withPage (fun p =>
    mkPage (metrics p) (isSessionActive p) (sessionId p) (Some s)).

Definition setView (v : View) : World -> World :=
  withApp (fun a => mkApp v (sessionData a) (appSessionId a)).
Definition setSessionData (d : Payload) : World -> World :=
  withApp (fun a => mkApp (view a) (Some d) (appSessionId a)).
Definition setAppSessionId (s : option string) : World -> World :=
  withApp (fun a => mkApp (view a) (sessionData a) s).

(** *** Host effects *)

Definition alert (msg : string) : World -> World :=
  withOut (fun o => mkOutput (requests o) (sent o) (alerts o ++ [msg])).
Definition post (p : Payload) : World -> World :=
  withOut (fun o => mkOutput (requests o ++ [p]) (sent o) (alerts o)).
Definition wsSend (m : WsMessage) : World -> World :=
  withOut (fun o => mkOutput (requests o) (sent o ++ [m]) (alerts o)).

Fixpoint removeNth {A} (i : nat) (l : list A) : list A :=
  match i, l with
  | _, [] => []
  | O, _ :: r => r
  | S j, x :: r => x :: removeNth j r
  end.

(** *** Speech recognition *)

(** [supported]: the browser has a speech recognition constructor;
    [now]: the value of [Date.now()]. *)
Definition startSpeechRecognition (supported : bool) (now : Z)
    (w : World) : World :=
  if negb supported
  then alert "Speech recognition not supported in this browser." w
  else
    let r := nextRef w in
    fresh 1
      (withRefs (fun rf => mkRefs (Some r) (wsRef rf) (audioCtxRef rf)
                                  (processorRef rf) (audioStreamRef rf))
         (withFlight (fun f =>
            mkFlight (Some (Speech.mkAcc 0 0 now)) (socket f)
                     (poseInFlight f) (emotionInFlight f) (micPending f)
                     (logPending f) (endPending f)) w)).

Definition stopSpeechRecognition : World -> World :=
  withEnv (fun e => snd (Teardown.stopSpeechRecognition noFault e)).

(** A result event of the latest recognition object, at time [now]. *)
Definition onresult (ev : Speech.ResultEvent) (now : Z) (w : World)
  : World :=
  match recognition (flight w) with
  | None => w
  | Some acc =>
      let acc' := fst (Speech.onresult acc ev now (metrics (page w))) in
      setMetrics (fun prev => snd (Speech.onresult acc ev now prev))
        (withFlight (fun f =>
           mkFlight (Some acc') (socket f) (poseInFlight f)
                    (emotionInFlight f) (micPending f) (logPending f)
                    (endPending f)) w)
  end.

(** *** Audio streaming *)

Definition setSocket (s : option Socket) : World -> World :=
  withFlight (fun f =>
    mkFlight (recognition f) s (poseInFlight f) (emotionInFlight f)
             (micPending f) (logPending f) (endPending f)).

Definition setMicPending (n : nat) : World -> World :=
  withFlight (fun f =>
    mkFlight (recognition f) (socket f) (poseInFlight f)
             (emotionInFlight f) n (logPending f) (endPending f)).

(** [startAudioStreaming(sid)] up to its [await]: the socket is
    created and stored, the microphone is asked for. *)
Definition startAudioStreaming (sid : string) (w : World) : World :=
  let ws := nextRef w in
  fresh 1
    (setMicPending (S (micPending (flight w)))
       (setSocket (Some (mkSocket ws sid Uplink.CONNECTING))
          (withRefs (fun rf =>
             mkRefs (recognitionRef rf) (Some ws) (audioCtxRef rf)
                    (processorRef rf) (audioStreamRef rf)) w))).

(** The rest of [startAudioStreaming], when [getUserMedia] settles. *)
Definition micSettled (granted : bool) (w : World) : World :=
  match micPending (flight w) with
  | O => w
  | S n =>
      let w1 := setMicPending n w in
      if granted then
        let r := nextRef w1 in
        fresh 3
          (withRefs (fun rf =>
             mkRefs (recognitionRef rf) (wsRef rf) (Some (r + 1)%nat)
                    (Some (r + 2)%nat) (Some [r])) w1)
      else setError "Microphone access failed." w1
  end.

(** [ws.onopen] *)
Definition onopen (w : World) : World :=
  match socket (flight w) with
  | Some (mkSocket ws sid Uplink.CONNECTING) =>
      let w1 := setSocket (Some (mkSocket ws sid Uplink.OPEN)) w in
      match sid with
      | EmptyString => w1
      | _ => wsSend (Bind sid) w1
      end
  | _ => w
  end.

(** [processor.onaudioprocess], while a processor is connected. *)
Definition onaudioprocess (input : list Q) (w : World) : World :=
  match processorRef (refs (env w)), socket (flight w) with
  | Some _, Some s =>
      match Uplink.onaudioprocess (readyState s) input with
      | Some frame => wsSend (Frame frame) w
      | None => w
      end
  | _, _ => w
  end.

(** [stopAudioStreaming]; the socket it closes leaves the open state. *)
Definition stopAudioStreaming (w : World) : World :=
  let closing :=
    match wsRef (refs (env w)), socket (flight w) with
    | Some ws, Some s =>
        if (ws =? socketRef s)%nat
        then Some (mkSocket (socketRef s) (socketSid s) Uplink.CLOSING)
        else Some s
    | _, s => s
    end in
  setSocket closing
    (withEnv (fun e => snd (Teardown.stopAudioStreaming noFault e)) w).

(** *** Pose analyzer and expression sampler *)

Definition setPoseInFlight (n : nat) : World -> World :=
  withFlight (fun f =>
    mkFlight (recognition f) (socket f) n (emotionInFlight f)
             (micPending f) (logPending f) (endPending f)).

Definition setEmotionInFlight (n : nat) : World -> World :=
  withFlight (fun f =>
    mkFlight (recognition f) (socket f) (poseInFlight f) n
             (micPending f) (logPending f) (endPending f)).

(** [onFrame] of the camera: a frame is sent to the detector only
    while the session is active. *)
Definition onFrame (w : World) : World :=
  if mounted w && isSessionActive (page w)
  then setPoseInFlight (S (poseInFlight (flight w))) w
  else w.

(** [pose.onResults] for a frame sent earlier. *)
Definition onResults (atan2deg : Q) (res : Pose.Results) (w : World)
  : World :=
  match poseInFlight (flight w) with
  | O => w
  | S n => setMetrics (Pose.onResults atan2deg res) (setPoseInFlight n w)
  end.

(** A tick of [emotionInterval], up to the [await]. *)
Definition emotionTick (video : option Z) (w : World) : World :=
  if mounted w && Expression.tickStarts (isSessionActive (page w)) video
  then setEmotionInFlight (S (emotionInFlight (flight w))) w
  else w.

(** The rest of a tick, when its classification completes. *)
Definition emotionCompleted (detections : option Expression.Expressions)
    (w : World) : World :=
  match emotionInFlight (flight w) with
  | O => w
  | S n =>
      setMetrics (Expression.completed detections) (setEmotionInFlight n w)
  end.

(** *** End of session *)

Definition setLogPending (l : list Metrics) : World -> World :=
  withFlight (fun f =>
    mkFlight (recognition f) (socket f) (poseInFlight f)
             (emotionInFlight f) (micPending f) l (endPending f)).

Definition setEndPending (l : list Payload) : World -> World :=
  withFlight (fun f =>
    mkFlight (recognition f) (socket f) (poseInFlight f)
             (emotionInFlight f) (micPending f) (logPending f) l).

(** [handleEndSession(metrics)] of App up to its [await]: the payload
    is posted. *)
Definition handleEndSession (p : Payload) (w : World) : World :=
  setEndPending (endPending (flight w) ++ [p]) (post p w).

(** The rest of [handleEndSession] for the [i]-th pending fetch:
    [reply] is the [session_id] of the response, or [None] when the
    fetch (or the decoding of its response) failed. *)
Definition endSessionSettled (i : nat) (reply : option string) (w : World)
  : World :=
  match nth_error (endPending (flight w)) i with
  | None => w
  | Some p =>
      let w1 := setEndPending (removeNth i (endPending (flight w))) w in
      match reply with
      | Some id =>
          setView report (setAppSessionId (Some id) (setSessionData p w1))
      | None =>
          alert
            "Backend not reachable. Make sure FastAPI is running on port 8010."
            w1
      end
  end.

(** [handleSessionToggle] up to its [await].  [rnd] is
    [Math.random().toString(36).slice(2,9)], [now] is [Date.now()],
    [supported] tells whether the browser has speech recognition. *)
Definition handleSessionToggle (rnd : string) (now : Z) (supported : bool)
    (w : World) : World :=
  if negb (mounted w) then w
  else if isSessionActive (page w) then
    let w1 := stopSpeechRecognition w in
    let w2 := stopAudioStreaming w1 in
    let w3 := setIsSessionActive false w2 in
    let snapshot := metrics (page w) in
    setLogPending (logPending (flight w3) ++ [snapshot])
      (post (mkPayload snapshot None) w3)
  else
    let tempSessionId := ("session_" ++ rnd)%string in
    let w1 := setSessionId (Some tempSessionId) w in
    let w2 := startSpeechRecognition supported now w1 in
    let w3 := startAudioStreaming tempSessionId w2 in
    setIsSessionActive true w3.

(** The rest of the end branch of [handleSessionToggle] for the
    [i]-th pending fetch. *)
Definition toggleSettled (i : nat) (reply : option string) (w : World)
  : World :=
  match nth_error (logPending (flight w)) i with
  | None => w
  | Some snapshot =>
      let w1 := setLogPending (removeNth i (logPending (flight w))) w in
      match reply with
      | Some id =>
          handleEndSession (mkPayload snapshot (Some id))
            (setSessionId (Some id) w1)
      | None => handleEndSession (mkPayload snapshot None) w1
      end
  end.

(** *** Events *)

Inductive Event :=
| Click (rnd : string) (now : Z) (supported : bool)
| CameraFrame
| PoseResults (atan2deg : Q) (res : Pose.Results)
| EmotionTick (video : option Z)
| EmotionCompleted (detections : option Expression.Expressions)
| SpeechResult (ev : Speech.ResultEvent) (now : Z)
| MicSettled (granted : bool)
| SocketOpen
| AudioProcess (input : list Q)
| LogSettled (i : nat) (reply : option string)
| EndSettled (i : nat) (reply : option string).

Definition step (w : World) (e : Event) : World :=
  match e with
  | Click rnd now supported => handleSessionToggle rnd now supported w
  | CameraFrame => onFrame w
  | PoseResults a res => onResults a res w
  | EmotionTick video => emotionTick video w
  | EmotionCompleted d => emotionCompleted d w
  | SpeechResult ev now => onresult ev now w
  | MicSettled granted => micSettled granted w
  | SocketOpen => onopen w
  | AudioProcess input => onaudioprocess input w
  | LogSettled i reply => toggleSettled i reply w
  | EndSettled i reply => endSessionSettled i reply w
  end.

Definition run (w : World) (evs : list Event) : World :=
  fold_left step evs w.

(** The states the training view can be in. *)
Definition reachable (w : World) : Prop := exists evs, w = run init evs.

(** The three producers: the only functions passed to [setMetrics]. *)
Inductive writer : (Metrics -> Metrics) -> Prop :=
| writer_pose a res : writer (Pose.onResults a res)
| writer_emotion d : writer (Expression.completed d)
| writer_speech acc ev now :
    writer (fun prev => snd (Speech.onresult acc ev now prev)).

(** [m'] has the voice fields of [m]. *)
Definition sameVoice (m m' : Metrics) : Prop :=
  volume m' = volume m /\ pitch m' = pitch m /\ tone m' = tone m.

Definition isClick (e : Event) : bool :=
  match e with Click _ _ _ => true | _ => false end.

(** No press of the session button among the events. *)
Definition noClick (evs : list Event) : bool :=
  forallb (fun e => negb (isClick e)) evs.

(** A mounted view in which no session has been started yet. *)
Definition pristine (w : World) : Prop :=
  mounted w = true
  /\ isSessionActive (page w) = false
  /\ metrics (page w) = defaultMetrics
  /\ recognition (flight w) = None
  /\ poseInFlight (flight w) = 0%nat
  /\ emotionInFlight (flight w) = 0%nat
  /\ logPending (flight w) = []
  /\ endPending (flight w) = [].

Definition backendAlert : string :=
  "Backend not reachable. Make sure FastAPI is running on port 8010.".

End Session.

(* ================================================================== *)
(** ** Vocabulary for the properties of the pipeline *)

Module Shape.

(** The ranges the producers keep the record in. *)
Definition wellFormed (m : Metrics) : Prop :=
  0 <= posture m <= 100
  /\ -90 <= headTilt m <= 90
  /\ (eyeContact m = "Unknown" \/ eyeContact m = "Good"
      \/ eyeContact m = "Looking Away")
  /\ 0 <= wpm m
  /\ 0 <= fillers m.

(** The accumulators of a recognition object are in order. *)
Definition accOk (acc : Speech.Acc) : Prop :=
  0 <= Speech.fillerCount acc <= Speech.wordCount acc.

(** A pose event carries an angle [Math.atan2] can return, in degrees. *)
Definition angleOk (e : Session.Event) : Prop :=
  match e with
  | Session.PoseResults a _ => (-180 < a)%Q /\ (a <= 180)%Q
  | _ => True
  end.

(** The attempted calls of a teardown whose full list is [cs]: all of
    them up to and including the first that throws. *)
Fixpoint untilThrow (throws : Teardown.Call -> bool)
    (cs : list Teardown.Call) : list Teardown.Call :=
  match cs with
  | [] => []
  | c :: r => if throws c then [c] else c :: untilThrow throws r
  end.

(** The session identifier of the latest bind message of a log. *)
Fixpoint lastBind (log : list Session.WsMessage) : option string :=
  match log with
  | [] => None
  | Session.Bind sid :: r =>
      match lastBind r with Some s => Some s | None => Some sid end
  | Session.Frame _ :: r => lastBind r
  end.

(** No character of the string is white space. *)
Fixpoint noSpace (s : string) : bool :=
  match s with
  | EmptyString => true
  | String c r => negb (Speech.isSpace c) && noSpace r
  end.

(** The list is in non-decreasing order. *)
Fixpoint ascending (l : list Z) : bool :=
  match l with
  | x :: ((y :: _) as r) => (x <=? y) && ascending r
  | _ => true
  end.

(** An event that neither presses the session button nor settles a
    fetch of the training page. *)
Definition quiet (e : Session.Event) : bool :=
  match e with
  | Session.Click _ _ _ | Session.LogSettled _ _ => false
  | _ => true
  end.

(** A computation that, run with refs [r], attempts exactly the calls
    of [cs] up to the first that throws, throws if one does, and leaves
    the refs alone. *)
Definition performsAt (throws : Teardown.Call -> bool) (r : Teardown.Refs)
    (m : Teardown.JS unit) (cs : list Teardown.Call) : Prop :=
  forall e, Teardown.refs e = r ->
    m e = (if existsb throws cs then Teardown.Thrown else Teardown.Normal tt,
           Teardown.mkEnv r (Teardown.calls e ++ untilThrow throws cs)).

(** The record and the accumulators are in their ranges. *)
Definition dataOk (w : Session.World) : Prop :=
  wellFormed (Session.metrics (Session.page w))
  /\ forall acc, Session.recognition (Session.flight w) = Some acc ->
                 accOk acc.

(** The discipline of the audio socket: an active session holds the
    latest socket; outside a session that socket is closing; a socket
    has a non-empty session identifier, and once open the latest bind
    message on the wire is its own; the wire starts with a bind
    message. *)
Definition socketOk (w : Session.World) : Prop :=
  (Session.isSessionActive (Session.page w) = true ->
   exists s, Session.socket (Session.flight w) = Some s
             /\ Teardown.wsRef (Teardown.refs (Session.env w))
                = Some (Session.socketRef s))
  /\ (Session.isSessionActive (Session.page w) = false ->
      forall s, Session.socket (Session.flight w) = Some s ->
                Session.readyState s = Uplink.CLOSING)
  /\ (forall s, Session.socket (Session.flight w) = Some s ->
                Session.socketSid s <> EmptyString
                /\ (Session.readyState s = Uplink.OPEN ->
                    lastBind (Session.sent (Session.out w))
                    = Some (Session.socketSid s)))
  /\ match Session.sent (Session.out w) with
     | [] => True
     | m :: _ => exists sid, m = Session.Bind sid
     end.


End Shape.

(* ================================================================== *)
(** ** The report page *)

Module ReportPage.

Record Insights := mkInsights {
  insight_posture     : string;
  insight_eye_contact : string;
  insight_emotion     : string;
  insight_tone        : option string
}.

(** [result.report] of the report endpoint. *)
Record Report := mkReport {
  summary         : string;
  insights        : Insights;
  recommendations : list string
}.

(** React state of the page; [fetching] tells that the fetch of
    [fetchReport] has not settled yet. *)
Record State := mkState {
  report   : option Report;
  loading  : bool;
  fetching : bool
}.

(** Truthiness of the [sessionId] prop: absent and empty are falsy. *)
Definition truthy (sessionId : option string) : bool :=
  match sessionId with
  | Some (String _ _) => true
  | _ => false
  end.

(** The page after its first effect: [fetchReport] returns at once
    without an identifier, and fetches otherwise. *)
Definition mount (sessionId : option string) : State :=
  {| report := None; loading := true; fetching := truthy sessionId |}.

(** The rest of [fetchReport]: [reply] is [None] when the fetch or the
    decoding failed, and [Some r] with [r] the [report] field of the
    answer (possibly absent) otherwise. *)
Definition settled (reply : option (option Report)) (st : State) : State :=
  if fetching st then
    {| report := match reply with Some r => r | None => report st end;
       loading := false;
       fetching := false |}
  else st.

Definition run (st : State) (replies : list (option (option Report)))
  : State :=
  fold_left (fun s r => settled r s) replies st.

Inductive Screen :=
| LoadingReport
| NoReportFound
| Full (r : Report) (insightLines : list string).

(** The list items of the insights box: the tone line only when the
    report has a non-empty one. *)
Definition insightLines (i : Insights) : list string :=
  [insight_posture i; insight_eye_contact i; insight_emotion i]
  ++ match insight_tone i with
     | Some (String c r) => [String c r]
     | _ => []
     end.

Definition render (st : State) : Screen :=
  if loading st then LoadingReport
  else match report st with
       | None => NoReportFound
       | Some r => Full r (insightLines (insights r))
       end.

(** The simulated trends of the chart. *)
Definition postureTrend (posture : Z) : list Z :=
  [Z.max 50 (posture - 10); Z.max 55 (posture - 5); posture;
   Z.min 95 (posture + 5)].

Definition wpmTrend (wpm : Z) : list Z :=
  [Z.max 80 (wpm - 30); wpm - 10; wpm; Z.min 180 (wpm + 15)].

Definition labels : list string :=
  ["Start"; "1 min"; "2 min"; "3 min"; "End"].

End ReportPage.

(* ================================================================== *)
(** ** The home page: the typing animation *)

Module HomePage.

Definition fullText : string := "Face. Train. Succeed.".

(** [i] is the counter of the effect, [timeouts] the number of resets
    scheduled by [setTimeout] and not yet run. *)
Record State := mkState {
  i           : nat;
  displayText : string;
  timeouts    : nat
}.

Definition init : State := mkState 0 "" 0.

(** [s.slice(0, n)] *)
Definition slice0 (n : nat) (s : string) : string := substring 0 n s.

(** The callback of [setInterval]. *)
Definition tick (st : State) : State :=
  let i' := S (i st) in
  {| i := i';
     displayText := slice0 (i st + 1) fullText;
     timeouts := if (i' =? String.length fullText)%nat
                 then S (timeouts st) else timeouts st |}.

(** The callback of [setTimeout], when one is scheduled. *)
Definition reset (st : State) : State :=
  match timeouts st with
  | O => st
  | S n => {| i := 0; displayText := ""; timeouts := n |}
  end.

Inductive Event := Tick | Timeout.

Definition step (st : State) (e : Event) : State :=
  match e with Tick => tick st | Timeout => reset st end.

Definition run (st : State) (evs : list Event) : State :=
  fold_left step evs st.

End HomePage.

(* ================================================================== *)
(** * Properties *)

Unset Implicit Arguments.

(** ** Facts about the number conversions *)

Section NumberFacts.

Import JsNum.
Local Open Scope Q_scope.

Lemma Qfloor_half_bounds (q : Q) (a b : Z) :
  inject_Z a <= q -> q <= inject_Z b ->
  (a <= Qfloor (q + (1 # 2)) <= b)%Z.
Proof.
  intros Ha Hb. split.
  - rewrite <- (Qfloor_Z a). apply Qfloor_resp_le. lra.
  - assert (H : (Qfloor (q + (1 # 2)) < b + 1)%Z); [| lia].
    rewrite Zlt_Qlt, inject_Z_plus.
    pose proof (Qfloor_le (q + (1 # 2))) as Hf.
    change (inject_Z 1) with 1. lra.
Qed.

(** [toFixed0] maps a symmetric interval with integer ends into
    itself. *)
Lemma toFixed0_bounds (q : Q) (b : Z) :
  (0 <= b)%Z -> inject_Z (- b) <= q -> q <= inject_Z b ->
  (- b <= toFixed0 q <= b)%Z.
Proof.
  intros Hb Hlo Hhi. unfold toFixed0.
  rewrite inject_Z_opp in Hlo.
  assert (H0 : 0 <= inject_Z b)
    by (change 0 with (inject_Z 0); rewrite <- Zle_Qle; exact Hb).
  destruct (Qlt_le_dec q 0) as [Hneg | Hpos].
  - destruct (@Qfloor_half_bounds (- q) 0 b) as [H1 H2];
      [change (inject_Z 0) with 0; lra | lra | lia].
  - destruct (@Qfloor_half_bounds q 0 b) as [H1 H2];
      [change (inject_Z 0) with 0; lra | lra | lia].
Qed.

(** Truncation moves a number by less than one. *)
Lemma Qtrunc_close (y : Q) : Qabs (inject_Z (Qtrunc y) - y) < 1.
Proof.
  apply Qabs_Qlt_condition.
  destruct y as [n d]. unfold Qtrunc; simpl Qnum; simpl Qden.
  pose proof (Z.quot_rem' n (Zpos d)) as Hqr.
  pose proof (Z.rem_bound_abs n (Zpos d) ltac:(lia)) as Hr.
  unfold Qlt, Qminus, Qplus, Qopp, inject_Z; simpl.
  split; nia.
Qed.

Lemma wrap16_small (z : Z) : (-32768 <= z < 32768)%Z -> wrap16 z = z.
Proof.
  intros Hz. unfold wrap16.
  destruct (Z_lt_le_dec z 0) as [Hn | Hp].
  - assert (Hm : (z mod 65536 = z + 65536)%Z)
      by (symmetry; apply Z.mod_unique with (q := (-1)%Z); lia).
    rewrite Hm. destruct (Z.leb_spec 32768 (z + 65536)); lia.
  - rewrite Z.mod_small by lia.
    destruct (Z.leb_spec 32768 z); lia.
Qed.

Lemma shiftTilt_range (theta : Q) :
  -180 < theta -> theta <= 180 ->
  -90 <= Pose.shiftTilt theta /\ Pose.shiftTilt theta <= 90.
Proof.
  intros Hlo Hhi. unfold Pose.shiftTilt.
  destruct (Qlt_le_dec 90 theta) as [H | H]; cbv zeta;
    match goal with
    | |- context [Qlt_le_dec ?a ?b] => destruct (Qlt_le_dec a b)
    end; lra.
Qed.

End NumberFacts.

(** ** Head tilt *)

(** C8.  For every raw shoulder-line angle theta in (-180,180], the
    normalisation (subtract 180 above 90, then add 180 below -90, then
    round to the nearest integer degree) yields a head tilt in
    [-90, 90]. *)
Theorem headTilt_normalized_in_range (theta : Q) :
  (-180 < theta)%Q -> (theta <= 180)%Q ->
  -90 <= Pose.normalizeTilt theta <= 90.
Proof.
  intros Hlo Hhi. unfold Pose.normalizeTilt.
  destruct (shiftTilt_range theta Hlo Hhi) as [H1 H2].
  apply (toFixed0_bounds _ 90); [lia | exact H1 | exact H2].
Qed.

Lemma headTilt_normalized_in_range_witness :
  -90 <= Pose.normalizeTilt 135 <= 90.
Proof.
  apply headTilt_normalized_in_range; unfold Qlt, Qle; simpl; lia.
Defined.

(** The handler writes the normalised tilt of the angle it is given. *)
Lemma onResults_headTilt (theta : Q) (lm : list Pose.Landmark) (prev : Metrics)
    (L R nose : Pose.Landmark) :
  nth_error lm 11 = Some L -> nth_error lm 12 = Some R ->
  nth_error lm 0 = Some nose ->
  headTilt (Pose.onResults theta (Pose.mkResults (Some lm)) prev)
  = Pose.normalizeTilt theta.
Proof.
  intros HL HR HN. unfold Pose.onResults. cbn [Pose.poseLandmarks].
  rewrite HL, HR, HN. reflexivity.
Qed.

(** ** PCM conversion *)

(** C5, as stated, fails: the sample 1/4 is sent as 8191, and
    [round(0.25 * 32767)] is 8192; 8191 is further than one half from
    8191.75, so no rule of rounding to nearest gives it. *)
Lemma pcm16_sample_not_rounded :
  (-1 <= 1 # 4)%Q /\ (1 # 4 <= 1)%Q
  /\ Uplink.pcm16_sample (1 # 4) = 8191
  /\ Uplink.spec_pcm16_sample (1 # 4) = 8192
  /\ Uplink.pcm16_sample (1 # 4) <> Uplink.spec_pcm16_sample (1 # 4)
  /\ (1 # 2 < Qabs (inject_Z (Uplink.pcm16_sample (1 # 4)) - (1 # 4) * 32767))%Q.
Proof.
  repeat split; try (vm_compute; congruence).
Qed.

(** C5, amended.  For every sample x in [-1,1], the 16-bit integer
    placed in the frame is x * 32767 truncated toward zero; dividing it
    by 32767 gives a number less than one quantisation step (1/32767)
    away from x. *)
Theorem pcm16_sample_truncates (x : Q) :
  (-1 <= x)%Q -> (x <= 1)%Q ->
  Uplink.pcm16_sample x = JsNum.Qtrunc (x * 32767)
  /\ (Qabs (Uplink.pcm16_to_float (Uplink.pcm16_sample x) - x) < 1 / 32767)%Q.
Proof.
  intros Hlo Hhi.
  pose proof (Qtrunc_close (x * 32767)) as Hc.
  apply Qabs_Qlt_condition in Hc.
  assert (Hr : -32768 <= JsNum.Qtrunc (x * 32767) < 32768).
  { split.
    - assert (H : -32768 < JsNum.Qtrunc (x * 32767)); [| lia].
      rewrite Zlt_Qlt. change (inject_Z (-32768)) with (-32768)%Q. lra.
    - rewrite Zlt_Qlt. change (inject_Z 32768) with 32768%Q. lra. }
  assert (He : Uplink.pcm16_sample x = JsNum.Qtrunc (x * 32767))
    by (unfold Uplink.pcm16_sample, JsNum.toInt16; apply wrap16_small;
        exact Hr).
  split; [exact He |].
  rewrite He. unfold Uplink.pcm16_to_float.
  apply Qabs_Qlt_condition.
  unfold Qdiv. change (/ 32767)%Q with (1 # 32767)%Q. lra.
Qed.

Lemma pcm16_sample_truncates_witness :
  Uplink.pcm16_sample (1 # 4) = JsNum.Qtrunc ((1 # 4) * 32767)
  /\ (Qabs (Uplink.pcm16_to_float (Uplink.pcm16_sample (1 # 4)) - (1 # 4))
      < 1 / 32767)%Q.
Proof.
  apply pcm16_sample_truncates; unfold Qle; simpl; lia.
Defined.

(** An open socket gets one frame holding the conversion of every
    sample; a socket that is not open gets nothing. *)
Lemma onaudioprocess_frame (r : Uplink.ReadyState) (input : list Q) :
  Uplink.onaudioprocess r input
  = if Uplink.isOpen r then Some (map Uplink.pcm16_sample input) else None.
Proof. reflexivity. Qed.

(* ------------------------------------------------------------------ *)
(** ** The guard against music in [recognition.onresult] *)

Section SpeechFacts.

Import Speech.

(** The accumulators take every batch, kept or not. *)
Lemma onresult_accumulates acc ev now prev :
  fst (onresult acc ev now prev) = accumulate acc ev.
Proof.
  unfold onresult. destruct (rejected ev _); reflexivity.
Qed.

Lemma rejected_true_iff ev w :
  rejected ev w = true <-> (List.length (wordsOf ev) < 3)%nat /\ w < 40.
Proof.
  unfold rejected. rewrite andb_true_iff, Nat.ltb_lt, Z.ltb_lt. tauto.
Qed.

(** The filler count never exceeds the word count. *)
Lemma accumulate_fillers_le acc ev :
  fillerCount acc <= wordCount acc ->
  fillerCount (accumulate acc ev) <= wordCount (accumulate acc ev).
Proof.
  intros H. unfold accumulate. simpl.
  pose proof (filter_length_le (includes fillerLexicon) (wordsOf ev)).
  lia.
Qed.

End SpeechFacts.

(** C1, as stated, fails: the batch [um uh] delivered one minute after
    the start has 2 tokens and a pace of 2; the record is left as it was,
    but the word count and the filler count have both moved from 0 to
    2. *)
Lemma noise_batch_still_counted :
  let acc := Speech.mkAcc 0 0 0 in
  let ev := Speech.mkResultEvent 0 ["um uh"] in
  let after := Speech.onresult acc ev 60000 defaultMetrics in
  (List.length (Speech.wordsOf ev) < 3)%nat
  /\ Speech.wpmAt (fst after) 60000 < 40
  /\ snd after = defaultMetrics
  /\ Speech.wordCount (fst after) = 2
  /\ Speech.fillerCount (fst after) = 2
  /\ fst after <> acc.
Proof.
  vm_compute. repeat split; try reflexivity; try lia; congruence.
Qed.

(** C1, amended.  For every batch with fewer than 3 new tokens: if the
    pace computed just after the batch is below 40 the metrics record
    is left exactly as it was before the batch; if that pace is 40 or
    more the batch is applied, the record taking the new pace and the
    cumulative filler count and keeping its other fields. *)
Theorem noise_guard_keeps_record (acc : Speech.Acc) (ev : Speech.ResultEvent)
    (now : Z) (prev : Metrics) :
  (List.length (Speech.wordsOf ev) < 3)%nat ->
  let acc' := Speech.accumulate acc ev in
  let wpm' := Speech.wpmAt acc' now in
  (wpm' < 40 -> snd (Speech.onresult acc ev now prev) = prev)
  /\ (40 <= wpm' ->
      snd (Speech.onresult acc ev now prev)
      = {| posture := posture prev; headTilt := headTilt prev;
           eyeContact := eyeContact prev; emotion := emotion prev;
           wpm := wpm'; fillers := Speech.fillerCount acc';
           volume := volume prev; pitch := pitch prev; tone := tone prev |}).
Proof.
  intros Hlen acc' wpm'. unfold Speech.onresult. fold acc'. fold wpm'.
  split; intros Hw.
  - assert (Hr : Speech.rejected ev wpm' = true)
      by (apply rejected_true_iff; split; assumption).
    rewrite Hr. reflexivity.
  - destruct (Speech.rejected ev wpm') eqn:Hr; [| reflexivity].
    apply rejected_true_iff in Hr. lia.
Qed.

Lemma noise_guard_keeps_record_witness :
  snd (Speech.onresult (Speech.mkAcc 0 0 0)
         (Speech.mkResultEvent 0 ["um uh"]) 60000 defaultMetrics)
  = defaultMetrics
  /\ wpm (snd (Speech.onresult (Speech.mkAcc 0 0 0)
                 (Speech.mkResultEvent 0 ["um uh"]) 2000 defaultMetrics))
     = 60.
Proof.
  split.
  - apply (proj1 (@noise_guard_keeps_record (Speech.mkAcc 0 0 0)
                    (Speech.mkResultEvent 0 ["um uh"]) 60000 defaultMetrics
                    ltac:(vm_compute; lia))).
    vm_compute. reflexivity.
  - rewrite (proj2 (@noise_guard_keeps_record (Speech.mkAcc 0 0 0)
                      (Speech.mkResultEvent 0 ["um uh"]) 2000 defaultMetrics
                      ltac:(vm_compute; lia)));
      [reflexivity | vm_compute; discriminate].
Defined.

(* ------------------------------------------------------------------ *)
(** ** Teardown *)

Section TeardownFacts.

Import Teardown.
Variable throws : Call -> bool.

Lemma call_keepsRefs c : keepsRefs (call throws c).
Proof. intros e. reflexivity. Qed.

Lemma ret_keepsRefs {A} (a : A) : keepsRefs (ret a).
Proof. intros e. reflexivity. Qed.

Lemma bind_keepsRefs {A B} (m : JS A) (k : A -> JS B) :
  keepsRefs m -> (forall a, keepsRefs (k a)) -> keepsRefs (bind m k).
Proof.
  intros Hm Hk e. unfold bind. specialize (Hm e).
  destruct (m e) as [[a |] e']; simpl in *.
  - rewrite Hk. exact Hm.
  - exact Hm.
Qed.

Lemma optional_keepsRefs {A} (ref : Refs -> option A) k :
  (forall h, keepsRefs (k h)) -> keepsRefs (optional ref k).
Proof.
  intros Hk e. unfold optional.
  destruct (ref (refs e)); [apply Hk | reflexivity].
Qed.

Lemma forEach_keepsRefs {A} (f : A -> JS unit) l :
  (forall x, keepsRefs (f x)) -> keepsRefs (forEach f l).
Proof.
  intros Hf. induction l as [| x l IH]; simpl.
  - apply ret_keepsRefs.
  - apply bind_keepsRefs; [apply Hf | intros _; exact IH].
Qed.

(** A [try] block that leaves the refs alone, with a handler that
    returns and a [finally] that rewrites the refs: the whole returns,
    the refs are rewritten, the calls are those of the block. *)
Lemma guarded_total (body : JS unit) (f : Refs -> Refs) e :
  keepsRefs body ->
  fst (tryFinally (tryCatch body (ret tt)) (setRefs f) e) = Normal tt
  /\ refs (snd (tryFinally (tryCatch body (ret tt)) (setRefs f) e))
     = f (refs e)
  /\ calls (snd (tryFinally (tryCatch body (ret tt)) (setRefs f) e))
     = calls (snd (body e)).
Proof.
  intros Hb. specialize (Hb e).
  unfold tryFinally, tryCatch, setRefs, ret.
  destruct (body e) as [[[] |] e']; simpl in *; rewrite Hb; auto.
Qed.

Ltac keeps_refs :=
  repeat first
    [ apply bind_keepsRefs; [| intros _]
    | apply optional_keepsRefs; intros ?
    | apply forEach_keepsRefs; intros ?
    | apply call_keepsRefs ].

Lemma stopAudioStreaming_total e :
  fst (stopAudioStreaming throws e) = Normal tt
  /\ refs (snd (stopAudioStreaming throws e)) = clearAudioRefs (refs e).
Proof.
  unfold stopAudioStreaming.
  match goal with
  | |- context [tryFinally (tryCatch ?b _) _ _] =>
      destruct (guarded_total b clearAudioRefs e) as (H1 & H2 & _)
  end; [keeps_refs | split; assumption].
Qed.

Lemma stopAudioStreaming_idle e :
  wsRef (refs e) = None -> audioStreamRef (refs e) = None ->
  processorRef (refs e) = None -> audioCtxRef (refs e) = None ->
  stopAudioStreaming throws e = (Normal tt, e).
Proof.
  destruct e as [[rr ws ctx pr st] cl]. simpl.
  intros -> -> -> ->. reflexivity.
Qed.

Lemma call_returns c e :
  throws c = false ->
  call throws c e = (Normal tt, mkEnv (refs e) (calls e ++ [c])).
Proof. intros H. unfold call. rewrite H. reflexivity. Qed.

Lemma forEach_returns (f : nat -> Call) l e :
  (forall t, In t l -> throws (f t) = false) ->
  forEach (fun t => call throws (f t)) l e
  = (Normal tt, mkEnv (refs e) (calls e ++ map f l)).
Proof.
  revert e. induction l as [| t l IH]; intros e H; simpl.
  - rewrite app_nil_r. destruct e; reflexivity.
  - unfold bind. rewrite call_returns by (apply H; left; reflexivity).
    rewrite IH by (intros; apply H; right; assumption).
    simpl. rewrite <- app_assoc. reflexivity.
Qed.

Lemma optional_returns {A} (ref : Refs -> option A) k
    (cs : A -> list Call) e :
  (forall h, ref (refs e) = Some h ->
             k h e = (Normal tt, mkEnv (refs e) (calls e ++ cs h))) ->
  optional ref k e
  = (Normal tt,
     mkEnv (refs e)
           (calls e ++ match ref (refs e) with
                       | Some h => cs h | None => [] end)).
Proof.
  intros H. unfold optional. destruct (ref (refs e)) as [h |].
  - apply H. reflexivity.
  - rewrite app_nil_r. destruct e; reflexivity.
Qed.

(** When none of its calls throws, the teardown makes them all, in
    order. *)
Lemma stopAudioStreaming_returns e :
  (forall c, In c (audioTeardownCalls (refs e)) -> throws c = false) ->
  calls (snd (stopAudioStreaming throws e))
  = calls e ++ audioTeardownCalls (refs e).
Proof.
  intros H. unfold stopAudioStreaming.
  match goal with
  | |- context [tryFinally (tryCatch ?b _) _ _] =>
      destruct (guarded_total b clearAudioRefs e) as (_ & _ & Hc)
  end; [keeps_refs |].
  rewrite Hc. clear Hc. unfold bind.
  unfold audioTeardownCalls in *.
  rewrite (optional_returns wsRef _ (fun ws => [WsClose ws]))
    by (intros h Hh; apply call_returns, H; rewrite Hh;
        apply in_or_app; left; left; reflexivity).
  rewrite (optional_returns audioStreamRef _ (map TrackStop))
    by (intros ts Hts; apply forEach_returns; intros t Ht; apply H;
        simpl in Hts; rewrite Hts;
        apply in_or_app; right; apply in_or_app; left;
        apply in_map; exact Ht).
  rewrite (optional_returns processorRef _
             (fun p => [ProcessorDisconnect p]))
    by (intros p Hp; apply call_returns, H; simpl in Hp; rewrite Hp;
        do 2 (apply in_or_app; right); apply in_or_app; left; left;
        reflexivity).
  rewrite (optional_returns audioCtxRef _ (fun c => [AudioCtxClose c]))
    by (intros c Hc; apply call_returns, H; simpl in Hc; rewrite Hc;
        do 3 (apply in_or_app; right); left; reflexivity).
  simpl. rewrite <- !app_assoc. reflexivity.
Qed.

Lemma stopSpeechRecognition_idle e :
  recognitionRef (refs e) = None ->
  stopSpeechRecognition throws e = (Normal tt, e).
Proof. intros H. unfold stopSpeechRecognition. rewrite H. reflexivity. Qed.

Lemma stopSpeechRecognition_returns e r :
  recognitionRef (refs e) = Some r -> throws (RecognitionStop r) = false ->
  stopSpeechRecognition throws e
  = (Normal tt, mkEnv (clearRecognitionRef (refs e))
                      (calls e ++ [RecognitionStop r])).
Proof.
  intros H Ht. unfold stopSpeechRecognition, bind. rewrite H.
  rewrite call_returns by exact Ht. reflexivity.
Qed.

End TeardownFacts.

(** C6, as stated, fails: with every handle set and a connection whose
    [close] throws, the teardown makes that one call and no other (the
    tracks are not stopped, the processor is not disconnected, the audio
    handle is not closed); and [stopSpeechRecognition] throws when the
    recogniser's [stop] does, leaving its ref set. *)
Lemma teardown_stops_at_first_failure :
  let closeThrows :=
    fun c => match c with Teardown.WsClose _ => true | _ => false end in
  let e :=
    Teardown.mkEnv
      (Teardown.mkRefs (Some 0%nat) (Some 1%nat) (Some 3%nat) (Some 4%nat)
                       (Some [2%nat])) [] in
  let after := snd (Teardown.stopAudioStreaming closeThrows e) in
  let after' := Teardown.stopSpeechRecognition (fun _ => true) e in
  Teardown.calls after = [Teardown.WsClose 1]
  /\ ~ In (Teardown.TrackStop 2) (Teardown.calls after)
  /\ ~ In (Teardown.ProcessorDisconnect 4) (Teardown.calls after)
  /\ ~ In (Teardown.AudioCtxClose 3) (Teardown.calls after)
  /\ fst after' = Teardown.Thrown
  /\ Teardown.recognitionRef (Teardown.refs (snd after')) = Some 0%nat.
Proof.
  vm_compute. repeat split; try reflexivity;
    intros [H | []]; discriminate H.
Qed.

(** C6, amended.  [stopAudioStreaming] never throws and clears every
    handle reference, whichever of its steps fail; called again, or with
    nothing started, it makes no call and changes nothing; when none of
    its steps fails it makes them all, in order (close the connection,
    stop every capture track, disconnect the processor, close the audio
    handle).  [stopSpeechRecognition] does nothing when no recogniser is
    held; when the recogniser's [stop] returns it stops it and clears
    the reference, and a second call does nothing. *)
Theorem teardown_is_safe (throws : Teardown.Call -> bool) (e : Teardown.Env) :
  let e1 := snd (Teardown.stopAudioStreaming throws e) in
  fst (Teardown.stopAudioStreaming throws e) = Teardown.Normal tt
  /\ Teardown.refs e1 = Teardown.clearAudioRefs (Teardown.refs e)
  /\ Teardown.stopAudioStreaming throws e1 = (Teardown.Normal tt, e1)
  /\ (Teardown.refs e = Teardown.noRefs ->
      Teardown.stopAudioStreaming throws e = (Teardown.Normal tt, e))
  /\ ((forall c, In c (Teardown.audioTeardownCalls (Teardown.refs e)) ->
                 throws c = false) ->
      Teardown.calls e1
      = Teardown.calls e ++ Teardown.audioTeardownCalls (Teardown.refs e))
  /\ (Teardown.recognitionRef (Teardown.refs e) = None ->
      Teardown.stopSpeechRecognition throws e = (Teardown.Normal tt, e))
  /\ (forall r,
        Teardown.recognitionRef (Teardown.refs e) = Some r ->
        throws (Teardown.RecognitionStop r) = false ->
        let e2 := snd (Teardown.stopSpeechRecognition throws e) in
        Teardown.stopSpeechRecognition throws e
        = (Teardown.Normal tt,
           Teardown.mkEnv (Teardown.clearRecognitionRef (Teardown.refs e))
                          (Teardown.calls e ++ [Teardown.RecognitionStop r]))
        /\ Teardown.stopSpeechRecognition throws e2
           = (Teardown.Normal tt, e2)).
Proof.
  intros e1.
  destruct (stopAudioStreaming_total throws e) as [Hn Hr].
  repeat split.
  - exact Hn.
  - exact Hr.
  - apply stopAudioStreaming_idle; unfold e1; rewrite Hr; reflexivity.
  - intros H. apply stopAudioStreaming_idle; rewrite H; reflexivity.
  - apply stopAudioStreaming_returns.
  - apply stopSpeechRecognition_idle.
  - apply stopSpeechRecognition_returns; assumption.
  - rewrite (stopSpeechRecognition_returns throws e r H H0). simpl.
    apply stopSpeechRecognition_idle. reflexivity.
Qed.

Lemma teardown_is_safe_witness :
  let e :=
    Teardown.mkEnv
      (Teardown.mkRefs (Some 0%nat) (Some 1%nat) (Some 3%nat) (Some 4%nat)
                       (Some [2%nat])) [] in
  Teardown.calls (snd (Teardown.stopAudioStreaming Teardown.noFault e))
  = [Teardown.WsClose 1; Teardown.TrackStop 2;
     Teardown.ProcessorDisconnect 4; Teardown.AudioCtxClose 3]
  /\ Teardown.stopSpeechRecognition Teardown.noFault e
     = (Teardown.Normal tt,
        Teardown.mkEnv
          (Teardown.mkRefs None (Some 1%nat) (Some 3%nat) (Some 4%nat)
                           (Some [2%nat]))
          [Teardown.RecognitionStop 0])
  /\ Teardown.stopAudioStreaming Teardown.noFault
       (Teardown.mkEnv Teardown.noRefs [])
     = (Teardown.Normal tt, Teardown.mkEnv Teardown.noRefs [])
  /\ Teardown.stopSpeechRecognition Teardown.noFault
       (Teardown.mkEnv Teardown.noRefs [])
     = (Teardown.Normal tt, Teardown.mkEnv Teardown.noRefs []).
Proof.
  intros e.
  destruct (teardown_is_safe Teardown.noFault e)
    as (_ & _ & _ & _ & Hcalls & _ & Hstop).
  destruct (teardown_is_safe Teardown.noFault
              (Teardown.mkEnv Teardown.noRefs []))
    as (_ & _ & _ & Hnone & _ & Hidle & _).
  split; [| split; [| split]].
  - apply Hcalls. intros c _. reflexivity.
  - apply (Hstop 0%nat); reflexivity.
  - apply Hnone. reflexivity.
  - apply Hidle. reflexivity.
Defined.

(* ------------------------------------------------------------------ *)
(** ** The event system *)

Section SessionFacts.

Import Session.

Lemma nth_error_snoc {A} (l : list A) (x : A) :
  nth_error (l ++ [x]) (List.length l) = Some x.
Proof. induction l; simpl; auto. Qed.

Lemma removeNth_snoc {A} (l : list A) (x : A) :
  removeNth (List.length l) (l ++ [x]) = l.
Proof. induction l; simpl; congruence. Qed.

Ltac world w :=
  destruct w as [[?v ?sd ?sid] [?m ?a ?s ?er] ?e
                 [?rc ?so ?pf ?ef ?mp ?lp ?ep] [?rq ?st ?al] ?n].

(** A step leaves the record alone or applies one producer to it. *)
Lemma step_metrics w e :
  metrics (page (step w e)) = metrics (page w)
  \/ exists f, writer f /\ metrics (page (step w e)) = f (metrics (page w)).
Proof.
  world w. destruct e; simpl.
  - left. unfold handleSessionToggle, mounted.
    destruct v; simpl; try reflexivity.
    destruct a; simpl.
    + reflexivity.
    + unfold startSpeechRecognition. destruct supported; reflexivity.
  - left. unfold onFrame, mounted. destruct v, a; reflexivity.
  - unfold onResults. simpl. destruct pf; [left; reflexivity |].
    destruct v; simpl; try (left; reflexivity).
    right. eexists. split; [apply writer_pose | reflexivity].
  - left. unfold emotionTick, mounted. simpl.
    destruct v; simpl; try reflexivity.
    destruct (Expression.tickStarts a video); reflexivity.
  - unfold emotionCompleted. simpl. destruct ef; [left; reflexivity |].
    destruct v; simpl; try (left; reflexivity).
    right. eexists. split; [apply writer_emotion | reflexivity].
  - unfold onresult. simpl. destruct rc as [acc |]; [| left; reflexivity].
    destruct v; simpl; try (left; reflexivity).
    right. eexists. split; [apply (writer_speech acc ev now) | reflexivity].
  - left. unfold micSettled. simpl. destruct mp; [reflexivity |].
    destruct granted; simpl; [reflexivity |].
    destruct v; reflexivity.
  - left. unfold onopen. simpl.
    destruct so as [[ws sd0 []] |]; try reflexivity.
    destruct sd0; reflexivity.
  - left. unfold onaudioprocess. simpl.
    destruct (Teardown.processorRef (Teardown.refs e0)); [| reflexivity].
    destruct so as [sk |]; [| reflexivity].
    destruct (Uplink.onaudioprocess (readyState sk) input); reflexivity.
  - left. unfold toggleSettled. simpl.
    destruct (nth_error lp i); [| reflexivity].
    destruct reply; simpl; [| reflexivity].
    destruct v; reflexivity.
  - left. unfold endSessionSettled. simpl.
    destruct (nth_error ep i); [| reflexivity].
    destruct reply; reflexivity.
Qed.

Lemma writer_sameVoice f m : writer f -> sameVoice m (f m).
Proof.
  intros [a res | d | acc ev now]; unfold sameVoice.
  - unfold Pose.onResults. destruct (Pose.poseLandmarks res) as [lm |]; auto.
    destruct (nth_error lm 11), (nth_error lm 12), (nth_error lm 0); auto.
  - unfold Expression.completed. destruct d as [ex |]; auto.
    destruct (Expression.sortDesc ex) as [| [x c] r]; auto.
  - unfold Speech.onresult.
    destruct (Speech.rejected ev _); auto.
Qed.

Lemma step_sameVoice w e :
  sameVoice (metrics (page w)) (metrics (page (step w e))).
Proof.
  destruct (step_metrics w e) as [H | (f & Hf & H)]; rewrite H.
  - repeat split.
  - apply writer_sameVoice, Hf.
Qed.

Lemma run_sameVoice evs w :
  sameVoice (metrics (page w)) (metrics (page (run w evs))).
Proof.
  revert w. induction evs as [| e evs IH]; intros w; simpl.
  - repeat split.
  - destruct (IH (step w e)) as (H1 & H2 & H3).
    destruct (step_sameVoice w e) as (G1 & G2 & G3).
    repeat split; congruence.
Qed.

(** Before the first press of the button nothing is in flight, so
    nothing can write. *)
Lemma step_pristine w e :
  isClick e = false -> pristine w -> pristine (step w e).
Proof.
  intros Hc (Hm & Ha & Hd & Hr & Hp & He & Hl & Hn).
  world w. unfold mounted in Hm. simpl in *. subst.
  destruct v; try discriminate.
  destruct e; try discriminate; simpl; unfold pristine, mounted.
  - unfold onFrame, mounted. simpl. repeat split.
  - unfold onResults. simpl. repeat split.
  - unfold emotionTick, mounted, Expression.tickStarts. simpl.
    destruct video; simpl; repeat split.
  - unfold emotionCompleted. simpl. repeat split.
  - unfold onresult. simpl. repeat split.
  - unfold micSettled. simpl. destruct mp; [repeat split |].
    destruct granted; simpl; repeat split.
  - unfold onopen. simpl.
    destruct so as [[ws sd0 []] |]; try (repeat split; fail).
    destruct sd0; repeat split.
  - unfold onaudioprocess. simpl.
    destruct (Teardown.processorRef (Teardown.refs e0));
      [| repeat split].
    destruct so as [sk |]; [| repeat split].
    destruct (Uplink.onaudioprocess (readyState sk) input); repeat split.
  - unfold toggleSettled. simpl. destruct i; repeat split.
  - unfold endSessionSettled. simpl. destruct i; repeat split.
Qed.

Lemma run_pristine evs w :
  noClick evs = true -> pristine w -> pristine (run w evs).
Proof.
  revert w. induction evs as [| e evs IH]; intros w Hc Hw; simpl.
  - exact Hw.
  - simpl in Hc. apply andb_true_iff in Hc. destruct Hc as [He Hc].
    apply IH; [exact Hc |].
    apply step_pristine; [| exact Hw].
    destruct (isClick e); [discriminate | reflexivity].
Qed.

Lemma init_pristine : pristine init.
Proof. repeat split. Qed.

(** The end branch of the toggle. *)
Lemma toggle_end w rnd now sup :
  mounted w = true -> isSessionActive (page w) = true ->
  let w1 := handleSessionToggle rnd now sup w in
  app w1 = app w
  /\ page w1 = mkPage (metrics (page w)) false (sessionId (page w))
                      (error (page w))
  /\ out w1 = mkOutput
                (requests (out w) ++ [mkPayload (metrics (page w)) None])
                (sent (out w)) (alerts (out w))
  /\ logPending (flight w1) = logPending (flight w) ++ [metrics (page w)]
  /\ endPending (flight w1) = endPending (flight w).
Proof.
  world w. unfold mounted. simpl. intros Hv Ha. subst.
  destruct v; try discriminate.
  repeat split.
Qed.

(** The continuation of the toggle for the newest pending fetch. *)
Lemma toggle_settled w l snapshot reply :
  logPending (flight w) = l ++ [snapshot] ->
  let w1 := toggleSettled (List.length l) reply w in
  app w1 = app w
  /\ metrics (page w1) = metrics (page w)
  /\ isSessionActive (page w1) = isSessionActive (page w)
  /\ out w1 = mkOutput
                (requests (out w) ++ [mkPayload snapshot reply])
                (sent (out w)) (alerts (out w))
  /\ logPending (flight w1) = l
  /\ endPending (flight w1)
     = endPending (flight w) ++ [mkPayload snapshot reply].
Proof.
  world w. simpl. intros ->. unfold toggleSettled. simpl.
  rewrite nth_error_snoc, removeNth_snoc.
  destruct reply; simpl.
  - unfold setSessionId, withPage, mounted. simpl.
    destruct v; repeat split.
  - repeat split.
Qed.

(** The continuation of [handleEndSession] for the newest pending
    fetch. *)
Lemma end_settled w l p reply :
  endPending (flight w) = l ++ [p] ->
  let w1 := endSessionSettled (List.length l) reply w in
  match reply with
  | Some id =>
      app w1 = mkApp report (Some p) (Some id) /\ out w1 = out w
  | None =>
      app w1 = app w
      /\ out w1 = mkOutput (requests (out w)) (sent (out w))
                           (alerts (out w) ++ [backendAlert])
  end.
Proof.
  world w. simpl. intros ->. unfold endSessionSettled. simpl.
  rewrite nth_error_snoc, removeNth_snoc.
  destruct reply; simpl; split; reflexivity.
Qed.

End SessionFacts.

(** ** Writes after the end of a session *)

(** C2, on the code: a classification, and a pose inference, started
    while the session was active and completed after the session button
    has ended it, both write the record; the snapshot submitted is the
    record at the press of the button. *)
Example in_flight_results_written_after_end :
  let face := Some [("happy", 1%Q)] in
  let lm := repeat (Pose.mkLandmark (1 # 2) (1 # 2)) 13 in
  let ended :=
    Session.run Session.init
      [Session.Click "abc1234" 0 true; Session.EmotionTick (Some 4);
       Session.CameraFrame; Session.Click "" 5000 true] in
  let later :=
    Session.run ended
      [Session.EmotionCompleted face;
       Session.PoseResults 0 (Pose.mkResults (Some lm))] in
  Session.isSessionActive (Session.page ended) = false
  /\ Session.metrics (Session.page ended) = defaultMetrics
  /\ Session.requests (Session.out ended)
     = [Session.mkPayload defaultMetrics None]
  /\ Session.isSessionActive (Session.page later) = false
  /\ emotion (Session.metrics (Session.page later)) = "Happy"
  /\ posture (Session.metrics (Session.page later)) = 100
  /\ eyeContact (Session.metrics (Session.page later)) = "Good"
  /\ Session.metrics (Session.page later) <> defaultMetrics.
Proof.
  vm_compute. repeat split; try reflexivity. discriminate.
Qed.

(** ** Submission of the final snapshot *)

(** C10.  When a session ends and the session-log service answers, the
    snapshot is posted twice: by the training page, and again by the
    end-of-session handler of the application, with the same metrics and
    the session identifier of the first answer added. *)
Theorem session_end_submits_twice (w : Session.World) (rnd : string) (now : Z)
    (sup : bool) (id : string) :
  Session.mounted w = true ->
  Session.isSessionActive (Session.page w) = true ->
  let m := Session.metrics (Session.page w) in
  let i := List.length (Session.logPending (Session.flight w)) in
  let w2 :=
    Session.run w [Session.Click rnd now sup;
                   Session.LogSettled i (Some id)] in
  Session.requests (Session.out w2)
  = Session.requests (Session.out w)
    ++ [Session.mkPayload m None; Session.mkPayload m (Some id)]
  /\ Session.endPending (Session.flight w2)
     = Session.endPending (Session.flight w)
       ++ [Session.mkPayload m (Some id)].
Proof.
  intros Hm Ha m i w2.
  destruct (toggle_end w rnd now sup Hm Ha) as (_ & _ & Ho & Hl & He).
  destruct (toggle_settled _ _ _ (Some id) Hl) as (_ & _ & _ & Ho2 & _ & He2).
  unfold w2, i, m. simpl.
  rewrite Ho2, He2, Ho, He. simpl.
  rewrite <- app_assoc. split; reflexivity.
Qed.

Lemma session_end_submits_twice_witness :
  Session.requests
    (Session.out
       (Session.run
          (Session.run Session.init [Session.Click "abc1234" 0 true])
          [Session.Click "" 9000 true; Session.LogSettled 0 (Some "srv-1")]))
  = [Session.mkPayload defaultMetrics None;
     Session.mkPayload defaultMetrics (Some "srv-1")].
Proof.
  apply (proj1 (@session_end_submits_twice
                  (Session.run Session.init [Session.Click "abc1234" 0 true])
                  "" 9000 true "srv-1" eq_refl eq_refl)).
Defined.

(** C3, as stated, fails: when the submission of the training page
    fails and that of the application fails as well, the user is shown
    an alert and stays on the training view. *)
Lemma failed_submission_stays_on_training :
  let w :=
    Session.run Session.init
      [Session.Click "abc1234" 0 true; Session.Click "" 9000 true;
       Session.LogSettled 0 None; Session.EndSettled 0 None] in
  Session.isSessionActive (Session.page w) = false
  /\ Session.view (Session.app w) = Session.training
  /\ Session.view (Session.app w) <> Session.report
  /\ Session.alerts (Session.out w) = [Session.backendAlert].
Proof.
  vm_compute. repeat split; try reflexivity. discriminate.
Qed.

(** C3, amended.  If the submission made by the training page fails,
    the session still ends and the locally held snapshot is handed to
    the end-of-session handler of the application with no session
    identifier attached.  That handler submits it once more: if this
    second submission succeeds the user reaches the report view (with
    the snapshot, and the identifier of that answer); if it fails too,
    an alert is shown and the view stays the training view. *)
Theorem failed_submission_forwards_snapshot (w : Session.World) (rnd : string)
    (now : Z) (sup : bool) :
  Session.mounted w = true ->
  Session.isSessionActive (Session.page w) = true ->
  let m := Session.metrics (Session.page w) in
  let i := List.length (Session.logPending (Session.flight w)) in
  let j := List.length (Session.endPending (Session.flight w)) in
  let w2 :=
    Session.run w [Session.Click rnd now sup; Session.LogSettled i None] in
  Session.isSessionActive (Session.page w2) = false
  /\ Session.app w2 = Session.app w
  /\ Session.requests (Session.out w2)
     = Session.requests (Session.out w)
       ++ [Session.mkPayload m None; Session.mkPayload m None]
  /\ Session.endPending (Session.flight w2)
     = Session.endPending (Session.flight w) ++ [Session.mkPayload m None]
  /\ (forall id,
        Session.app (Session.step w2 (Session.EndSettled j (Some id)))
        = Session.mkApp Session.report (Some (Session.mkPayload m None))
                        (Some id))
  /\ Session.app (Session.step w2 (Session.EndSettled j None)) = Session.app w
  /\ Session.alerts (Session.out (Session.step w2 (Session.EndSettled j None)))
     = Session.alerts (Session.out w) ++ [Session.backendAlert].
Proof.
  intros Hm Ha m i j w2.
  destruct (toggle_end w rnd now sup Hm Ha) as (Hp0 & Hp & Ho & Hl & He).
  destruct (toggle_settled _ _ _ None Hl)
    as (Hp1 & _ & Ha2 & Ho2 & _ & He2).
  assert (Hw2 : w2 = Session.toggleSettled i None
                       (Session.handleSessionToggle rnd now sup w))
    by reflexivity.
  fold i in Hp1, Ha2, Ho2, He2. rewrite <- Hw2 in Hp1, Ha2, Ho2, He2.
  rewrite He in He2. fold m in He2, Ho2.
  split; [rewrite Ha2, Hp; reflexivity |].
  split; [rewrite Hp1; exact Hp0 |].
  split; [rewrite Ho2, Ho; simpl; rewrite <- app_assoc; reflexivity |].
  split; [exact He2 |].
  split; [| split].
  - intros id. apply (end_settled _ _ _ (Some id) He2).
  - destruct (end_settled _ _ _ None He2) as [H _].
    simpl. fold j in H. rewrite H, Hp1. exact Hp0.
  - destruct (end_settled _ _ _ None He2) as [_ H].
    simpl. fold j in H. rewrite H. simpl. rewrite Ho2. simpl.
    rewrite Ho. reflexivity.
Qed.

Lemma failed_submission_forwards_snapshot_witness :
  let w := Session.run Session.init [Session.Click "abc1234" 0 true] in
  let w2 :=
    Session.run w [Session.Click "" 9000 true; Session.LogSettled 0 None] in
  Session.isSessionActive (Session.page w2) = false
  /\ Session.requests (Session.out w2)
     = [Session.mkPayload defaultMetrics None;
        Session.mkPayload defaultMetrics None].
Proof.
  intros w w2.
  destruct (@failed_submission_forwards_snapshot w "" 9000 true
              eq_refl eq_refl) as (H1 & _ & H3 & _).
  split; [exact H1 | exact H3].
Defined.

(** ** Start of a session *)

(** C4, as stated, fails: a session that showed a pace of 60 is ended,
    its submission fails, and the session started next in the same view
    begins with the pace 60 and the filler count 2 of the earlier one. *)
Lemma restart_keeps_old_metrics :
  let w :=
    Session.run Session.init
      [Session.Click "abc1234" 0 true;
       Session.SpeechResult (Speech.mkResultEvent 0 ["um uh"]) 2000;
       Session.Click "" 9000 true;
       Session.LogSettled 0 None; Session.EndSettled 0 None;
       Session.Click "def5678" 20000 true] in
  Session.mounted w = true
  /\ Session.isSessionActive (Session.page w) = true
  /\ wpm (Session.metrics (Session.page w)) = 60
  /\ fillers (Session.metrics (Session.page w)) = 2
  /\ Session.metrics (Session.page w) <> defaultMetrics.
Proof.
  vm_compute. repeat split; try reflexivity. discriminate.
Qed.

(** C4, amended.  A start writes no field of the metrics record.  The
    first start of a training view finds every field at its default
    (posture 0, headTilt 0, eyeContact Unknown, emotion Detecting...,
    wpm 0, fillers 0, volume 0, pitch 0, tone Neutral), because nothing
    writes the record before it; a later start leaves the record as the
    earlier session left it. *)
Theorem start_writes_no_metric :
  (forall w rnd now sup,
      Session.isSessionActive (Session.page w) = false ->
      Session.metrics (Session.page (Session.step w (Session.Click rnd now sup)))
      = Session.metrics (Session.page w))
  /\ (forall evs rnd now sup,
        Session.noClick evs = true ->
        let w := Session.step (Session.run Session.init evs)
                              (Session.Click rnd now sup) in
        Session.isSessionActive (Session.page w) = true
        /\ Session.metrics (Session.page w) = defaultMetrics).
Proof.
  split.
  - intros w rnd now sup Ha.
    destruct (step_metrics w (Session.Click rnd now sup))
      as [H | (f & Hf & H)]; [exact H |].
    destruct w as [[v sd sid] [m a s er] e fl o n]. simpl in *. subst a.
    unfold Session.handleSessionToggle, Session.mounted.
    destruct v; simpl; try reflexivity.
    unfold Session.startSpeechRecognition. destruct sup; reflexivity.
  - intros evs rnd now sup Hn w.
    destruct (run_pristine evs _ Hn init_pristine)
      as (Hm & Ha & Hd & _).
    unfold w. remember (Session.run Session.init evs) as w0 eqn:E. clear E.
    destruct w0 as [[v sd sid] [m a s er] e fl o n].
    unfold Session.mounted in Hm. simpl in *. subst.
    destruct v; try discriminate.
    unfold Session.handleSessionToggle, Session.mounted,
      Session.startSpeechRecognition. simpl.
    destruct sup; split; reflexivity.
Qed.

Lemma start_writes_no_metric_witness :
  Session.metrics
    (Session.page
       (Session.step
          (Session.run Session.init
             [Session.CameraFrame; Session.EmotionTick (Some 4)])
          (Session.Click "abc1234" 0 true)))
  = defaultMetrics
  /\ wpm (Session.metrics
            (Session.page
               (Session.step
                  (Session.run Session.init
                     [Session.Click "abc1234" 0 true;
                      Session.SpeechResult
                        (Speech.mkResultEvent 0 ["um uh"]) 2000;
                      Session.Click "" 9000 true])
                  (Session.Click "def5678" 20000 true))))
     = 60.
Proof.
  destruct start_writes_no_metric as [Hkeep Hfirst].
  split.
  - apply (Hfirst [Session.CameraFrame; Session.EmotionTick (Some 4)]
             "abc1234" 0 true eq_refl).
  - rewrite (Hkeep
               (Session.run Session.init
                  [Session.Click "abc1234" 0 true;
                   Session.SpeechResult
                     (Speech.mkResultEvent 0 ["um uh"]) 2000;
                   Session.Click "" 9000 true])
               "def5678" 20000 true eq_refl).
    vm_compute. reflexivity.
Defined.

(** ** Expression sampler *)




(** ** Voice fields and live tips *)

(** C9.  In every reachable state of the training view the volume,
    pitch and tone of the metrics record have their initial values 0, 0
    and Neutral, so the live tips always contain the speak-louder tip
    and never the great-energy tip. *)
Theorem voice_fields_never_written (w : Session.World) :
  Session.reachable w ->
  volume (Session.metrics (Session.page w)) = 0
  /\ pitch (Session.metrics (Session.page w)) = 0
  /\ tone (Session.metrics (Session.page w)) = "Neutral"
  /\ In Tips.SpeakLouder (Tips.liveTips (Session.metrics (Session.page w)))
  /\ ~ In Tips.GreatEnergy
         (Tips.liveTips (Session.metrics (Session.page w))).
Proof.
  intros [evs ->].
  destruct (run_sameVoice evs Session.init) as (Hv & Hp & Ht).
  simpl in Hv, Hp, Ht.
  set (m := Session.metrics (Session.page (Session.run Session.init evs)))
    in *.
  repeat split; try assumption.
  - unfold Tips.liveTips. rewrite Hv. simpl.
    apply in_or_app. right. apply in_or_app. right. left. reflexivity.
  - unfold Tips.liveTips. rewrite Hv, Ht. simpl.
    rewrite !app_nil_r.
    intros H.
    apply in_app_or in H. destruct H as [H | H].
    { unfold Tips.when in H. destruct (posture m <? 60); simpl in H;
        [destruct H as [H | []]; discriminate H | exact H]. }
    apply in_app_or in H. destruct H as [H | H].
    { unfold Tips.when in H.
      destruct (negb (String.eqb (eyeContact m) "Good")); simpl in H;
        [destruct H as [H | []]; discriminate H | exact H]. }
    simpl in H. destruct H as [H | H]; [discriminate H |].
    unfold Tips.when in H. destruct (5 <? fillers m); simpl in H;
      [destruct H as [H | []]; discriminate H | exact H].
Qed.

Lemma voice_fields_never_written_witness :
  let w :=
    Session.run Session.init
      [Session.Click "abc1234" 0 true;
       Session.SpeechResult (Speech.mkResultEvent 0 ["um uh"]) 2000;
       Session.EmotionTick (Some 4);
       Session.EmotionCompleted (Some [("happy", 1%Q)])] in
  volume (Session.metrics (Session.page w)) = 0
  /\ In Tips.SpeakLouder (Tips.liveTips (Session.metrics (Session.page w))).
Proof.
  intros w.
  destruct (voice_fields_never_written w (ex_intro _ _ eq_refl))
    as (H1 & _ & _ & H4 & _).
  split; [exact H1 | exact H4].
Defined.

(* ================================================================== *)
(** * Further properties of the code *)

(** ** Posture and head tilt *)

Section PoseFacts.

Import JsNum.
Local Open Scope Q_scope.

Lemma toFixed0_opp (q : Q) : toFixed0 (- q) = (- toFixed0 q)%Z.
Proof.
  unfold toFixed0.
  destruct (Qlt_le_dec q 0) as [H | H], (Qlt_le_dec (- q) 0) as [H' | H'].
  - lra.
  - lia.
  - rewrite (Qfloor_comp (- - q + (1 # 2)) (q + (1 # 2))) by ring. lia.
  - assert (E : q == 0) by lra.
    rewrite (Qfloor_comp (- q + (1 # 2)) (1 # 2)) by (rewrite E; ring).
    rewrite (Qfloor_comp (q + (1 # 2)) (1 # 2)) by (rewrite E; ring).
    reflexivity.
Qed.

Lemma toFixed0_nonneg (q : Q) : 0 <= q -> toFixed0 q = Qfloor (q + (1 # 2)).
Proof.
  intros H. unfold toFixed0. destruct (Qlt_le_dec q 0); [lra | reflexivity].
Qed.

Lemma toFixed0_mono_nonneg (p q : Q) :
  0 <= p -> p <= q -> (toFixed0 p <= toFixed0 q)%Z.
Proof.
  intros Hp Hpq. rewrite !toFixed0_nonneg by lra.
  apply Qfloor_resp_le. lra.
Qed.

Lemma Math_max_cases (a b : Q) :
  (a < b /\ Math_max a b = b) \/ (b <= a /\ Math_max a b = a).
Proof.
  unfold Math_max. destruct (Qlt_le_dec a b); [left | right]; split; auto.
Qed.

Lemma postureScore_range (L R : Pose.Landmark) :
  0 <= Pose.postureScore L R /\ Pose.postureScore L R <= 100.
Proof.
  unfold Pose.postureScore.
  pose proof (Qabs_nonneg ((Pose.ly R - Pose.ly L) * 100)) as Ha.
  destruct (Math_max_cases 0 (100 - Qabs ((Pose.ly R - Pose.ly L) * 100) * 4))
    as [[H ->] | [H ->]]; lra.
Qed.

Lemma shiftTilt_opp (theta : Q) :
  Pose.shiftTilt (- theta) == - Pose.shiftTilt theta.
Proof.
  unfold Pose.shiftTilt.
  destruct (Qlt_le_dec 90 theta), (Qlt_le_dec 90 (- theta)); cbv zeta;
    repeat match goal with
           | |- context [Qlt_le_dec ?a ?b] => destruct (Qlt_le_dec a b)
           end; lra.
Qed.

Lemma toFixed0_comp (p q : Q) : p == q -> toFixed0 p = toFixed0 q.
Proof.
  intros E. unfold toFixed0.
  destruct (Qlt_le_dec p 0), (Qlt_le_dec q 0); try lra.
  - rewrite (Qfloor_comp (- p + (1 # 2)) (- q + (1 # 2))) by (rewrite E; ring).
    reflexivity.
  - apply Qfloor_comp. rewrite E. ring.
Qed.

End PoseFacts.

Lemma posture_range_aux (L R : Pose.Landmark) :
  0 <= JsNum.toFixed0 (Pose.postureScore L R) <= 100.
Proof.
  destruct (postureScore_range L R) as [H0 H1].
  pose proof (toFixed0_bounds (Pose.postureScore L R) 100 ltac:(lia)) as H.
  assert (Hlo : (inject_Z (- 100) <= Pose.postureScore L R)%Q).
  { change (inject_Z (- 100)) with (-100)%Q. lra. }
  specialize (H Hlo H1).
  split; [| lia].
  rewrite toFixed0_nonneg by exact H0.
  change 0 with (Qfloor (inject_Z 0)). apply Qfloor_resp_le.
  change (inject_Z 0) with 0%Q. lra.
Qed.

(** X1.  Whatever the landmarks, the posture score written by the pose
    handler is an integer between 0 and 100. *)
Theorem posture_in_range (a : Q) (lm : list Pose.Landmark) (prev : Metrics) :
  (13 <= List.length lm)%nat ->
  0 <= posture (Pose.onResults a (Pose.mkResults (Some lm)) prev) <= 100.
Proof.
  intros Hlen. unfold Pose.onResults. cbn [Pose.poseLandmarks].
  destruct (nth_error lm 11) as [L |] eqn:E11;
    [| apply nth_error_None in E11; lia].
  destruct (nth_error lm 12) as [R |] eqn:E12;
    [| apply nth_error_None in E12; lia].
  destruct (nth_error lm 0) as [nose |] eqn:E0;
    [| apply nth_error_None in E0; lia].
  cbn [posture]. apply posture_range_aux.
Qed.

Lemma posture_in_range_witness :
  0 <= posture
         (Pose.onResults 3
            (Pose.mkResults
               (Some (repeat (Pose.mkLandmark (1 # 2) (1 # 2)) 33)))
            defaultMetrics)
    <= 100.
Proof.
  apply posture_in_range. simpl. lia.
Defined.

(** X2.  The posture score does not increase when the shoulders get
    less level: a larger difference of the shoulder heights gives a
    score that is lower or the same. *)
Theorem posture_monotone (L R L' R' : Pose.Landmark) :
  (Qabs (Pose.ly R - Pose.ly L) <= Qabs (Pose.ly R' - Pose.ly L'))%Q ->
  JsNum.toFixed0 (Pose.postureScore L' R')
  <= JsNum.toFixed0 (Pose.postureScore L R).
Proof.
  intros H.
  destruct (postureScore_range L' R') as [H0 _].
  apply toFixed0_mono_nonneg; [exact H0 |].
  unfold Pose.postureScore.
  assert (E : forall d : Q, (Qabs (d * 100) == Qabs d * 100)%Q).
  { intros d. rewrite Qabs_Qmult. change (Qabs 100) with 100%Q. reflexivity. }
  destruct (Math_max_cases 0
              (100 - Qabs ((Pose.ly R' - Pose.ly L') * 100) * 4))
    as [[Ha ->] | [Ha ->]];
  destruct (Math_max_cases 0
              (100 - Qabs ((Pose.ly R - Pose.ly L) * 100) * 4))
    as [[Hb ->] | [Hb ->]];
  rewrite ?E in *; lra.
Qed.

Lemma posture_monotone_witness :
  JsNum.toFixed0
    (Pose.postureScore (Pose.mkLandmark (3 # 10) (40 # 100))
                       (Pose.mkLandmark (7 # 10) (50 # 100)))
  <= JsNum.toFixed0
       (Pose.postureScore (Pose.mkLandmark (3 # 10) (40 # 100))
                          (Pose.mkLandmark (7 # 10) (42 # 100))).
Proof.
  apply posture_monotone. vm_compute. discriminate.
Defined.

(** X3.  The head tilt is odd in the raw angle: mirrored shoulders give
    the opposite tilt. *)
Theorem normalizeTilt_odd (theta : Q) :
  Pose.normalizeTilt (- theta) = - Pose.normalizeTilt theta.
Proof.
  unfold Pose.normalizeTilt.
  rewrite (toFixed0_comp _ _ (shiftTilt_opp theta)).
  apply toFixed0_opp.
Qed.

(** X4.  A frame without landmarks, or with fewer than the 13 landmarks
    that reach the right shoulder, leaves the record as it was. *)
Theorem missing_landmarks_skip_frame (a : Q) (res : Pose.Results)
    (prev : Metrics) :
  match Pose.poseLandmarks res with
  | None => True
  | Some lm => (List.length lm < 13)%nat
  end ->
  Pose.onResults a res prev = prev.
Proof.
  unfold Pose.onResults. destruct (Pose.poseLandmarks res) as [lm |];
    [| reflexivity].
  intros H.
  assert (E : nth_error lm 12 = None) by (apply nth_error_None; lia).
  rewrite E. destruct (nth_error lm 11); reflexivity.
Qed.

Lemma missing_landmarks_skip_frame_witness :
  Pose.onResults 30
    (Pose.mkResults (Some (repeat (Pose.mkLandmark (1 # 2) (1 # 2)) 12)))
    defaultMetrics
  = defaultMetrics.
Proof.
  apply missing_landmarks_skip_frame. simpl. lia.
Defined.

(** ** The PCM conversion outside the claims *)

Section TruncFacts.

Import JsNum.
Local Open Scope Q_scope.

Lemma Qtrunc_opp (q : Q) : Qtrunc (- q) = (- Qtrunc q)%Z.
Proof.
  destruct q as [n d]. unfold Qtrunc. simpl.
  apply Z.quot_opp_l. discriminate.
Qed.

Lemma Qtrunc_nonneg (q : Q) : 0 <= q -> Qtrunc q = Qfloor q.
Proof.
  destruct q as [n d]. unfold Qle, Qtrunc, Qfloor. simpl. intros H.
  apply Z.quot_div_nonneg; lia.
Qed.

Lemma Qtrunc_neg (q : Q) : q <= 0 -> Qtrunc q = (- Qfloor (- q))%Z.
Proof.
  intros H. rewrite <- (Qtrunc_nonneg (- q)) by lra.
  rewrite Qtrunc_opp. lia.
Qed.

Lemma Qfloor_nonneg (q : Q) : 0 <= q -> (0 <= Qfloor q)%Z.
Proof.
  intros H. change 0%Z with (Qfloor (inject_Z 0)).
  apply Qfloor_resp_le. exact H.
Qed.

Lemma Qtrunc_mono (x y : Q) : x <= y -> (Qtrunc x <= Qtrunc y)%Z.
Proof.
  intros H.
  destruct (Qlt_le_dec x 0) as [Hx | Hx], (Qlt_le_dec y 0) as [Hy | Hy].
  - rewrite !Qtrunc_neg by lra.
    assert (Qfloor (- y) <= Qfloor (- x))%Z
      by (apply Qfloor_resp_le; lra). lia.
  - rewrite (Qtrunc_neg x) by lra. rewrite (Qtrunc_nonneg y) by exact Hy.
    pose proof (Qfloor_nonneg (- x) ltac:(lra)).
    pose proof (Qfloor_nonneg y Hy). lia.
  - lra.
  - rewrite !Qtrunc_nonneg by lra. apply Qfloor_resp_le. exact H.
Qed.

Lemma Qtrunc_comp (x y : Q) : x == y -> Qtrunc x = Qtrunc y.
Proof.
  intros E. apply Z.le_antisymm; apply Qtrunc_mono; rewrite E; lra.
Qed.

Lemma wrap16_range (z : Z) : (-32768 <= wrap16 z <= 32767)%Z.
Proof.
  unfold wrap16.
  pose proof (Z.mod_pos_bound z 65536 ltac:(lia)).
  destruct (Z.leb_spec 32768 (z mod 65536)); lia.
Qed.

(** Inside the unit interval the store does not wrap. *)
Lemma pcm16_sample_unit (x : Q) :
  -1 <= x -> x <= 1 ->
  Uplink.pcm16_sample x = Qtrunc (x * 32767)
  /\ (-32767 <= Qtrunc (x * 32767) <= 32767)%Z.
Proof.
  intros Hlo Hhi.
  assert (Hr : (-32767 <= Qtrunc (x * 32767) <= 32767)%Z).
  { split.
    - change (-32767)%Z with (Qtrunc (inject_Z (-32767))).
      apply Qtrunc_mono. change (inject_Z (-32767)) with (-32767). lra.
    - change 32767%Z with (Qtrunc (inject_Z 32767)) at 2.
      apply Qtrunc_mono. change (inject_Z 32767) with 32767. lra. }
  split; [| exact Hr].
  unfold Uplink.pcm16_sample, toInt16. apply wrap16_small. lia.
Qed.

End TruncFacts.

(** X5.  A chunk that arrives while the socket is open is sent as one
    frame with one value per sample, each a signed 16-bit value whatever
    the sample; a chunk that arrives in any other socket state is
    dropped. *)
Theorem chunk_framed_or_dropped (r : Uplink.ReadyState) (input : list Q) :
  match Uplink.onaudioprocess r input with
  | Some frame =>
      r = Uplink.OPEN
      /\ List.length frame = List.length input
      /\ Forall (fun z => -32768 <= z <= 32767) frame
  | None => r <> Uplink.OPEN
  end.
Proof.
  unfold Uplink.onaudioprocess.
  destruct r; simpl; try discriminate.
  repeat split.
  - apply length_map.
  - apply Forall_forall. intros z Hz. apply in_map_iff in Hz.
    destruct Hz as (x & <- & _). apply wrap16_range.
Qed.

(** X6.  On samples in [-1,1] the conversion is monotone: a larger
    sample is never sent as a smaller value. *)
Theorem pcm16_sample_monotone (x y : Q) :
  (-1 <= x)%Q -> (x <= y)%Q -> (y <= 1)%Q ->
  Uplink.pcm16_sample x <= Uplink.pcm16_sample y.
Proof.
  intros Hx Hxy Hy.
  destruct (pcm16_sample_unit x Hx ltac:(lra)) as [-> _].
  destruct (pcm16_sample_unit y ltac:(lra) Hy) as [-> _].
  apply Qtrunc_mono. lra.
Qed.

Lemma pcm16_sample_monotone_witness :
  Uplink.pcm16_sample (- (1 # 4)) <= Uplink.pcm16_sample (1 # 2).
Proof.
  apply pcm16_sample_monotone; vm_compute; discriminate.
Defined.

(** X7.  On samples in [-1,1] the conversion is odd: a sample and its
    opposite are sent as opposite values, and the value -32768 is never
    sent. *)
Theorem pcm16_sample_odd (x : Q) :
  (-1 <= x)%Q -> (x <= 1)%Q ->
  Uplink.pcm16_sample (- x) = - Uplink.pcm16_sample x
  /\ -32767 <= Uplink.pcm16_sample x <= 32767.
Proof.
  intros Hlo Hhi.
  destruct (pcm16_sample_unit x Hlo Hhi) as [E Hr].
  destruct (pcm16_sample_unit (- x) ltac:(lra) ltac:(lra)) as [E' _].
  rewrite E, E'. split; [| exact Hr].
  rewrite (Qtrunc_comp (- x * 32767) (- (x * 32767))) by ring.
  apply Qtrunc_opp.
Qed.

Lemma pcm16_sample_odd_witness :
  Uplink.pcm16_sample (- (1 # 4)) = - Uplink.pcm16_sample (1 # 4)
  /\ -32767 <= Uplink.pcm16_sample (1 # 4) <= 32767.
Proof.
  apply pcm16_sample_odd; vm_compute; discriminate.
Defined.

(** X8.  A sample above full scale is not clipped: when its product
    with 32767 lies in [32768, 65536) the value sent is the truncated
    product minus 65536, a negative number. *)
Theorem pcm16_sample_overflow_wraps (x : Q) :
  (32768 <= x * 32767)%Q -> (x * 32767 < 65536)%Q ->
  Uplink.pcm16_sample x = JsNum.Qtrunc (x * 32767) - 65536
  /\ Uplink.pcm16_sample x < 0.
Proof.
  intros Hlo Hhi.
  assert (Hr : 32768 <= JsNum.Qtrunc (x * 32767) < 65536).
  { rewrite Qtrunc_nonneg by lra. split.
    - change 32768 with (Qfloor (inject_Z 32768)).
      apply Qfloor_resp_le. change (inject_Z 32768) with 32768%Q. exact Hlo.
    - rewrite Zlt_Qlt. pose proof (Qfloor_le (x * 32767)).
      change (inject_Z 65536) with 65536%Q. lra. }
  assert (E : Uplink.pcm16_sample x = JsNum.Qtrunc (x * 32767) - 65536).
  { unfold Uplink.pcm16_sample, JsNum.toInt16, JsNum.wrap16.
    rewrite Z.mod_small by lia.
    destruct (Z.leb_spec 32768 (JsNum.Qtrunc (x * 32767))); lia. }
  split; [exact E | lia].
Qed.

Lemma pcm16_sample_overflow_wraps_witness :
  Uplink.pcm16_sample (3 # 2) = JsNum.Qtrunc ((3 # 2) * 32767) - 65536
  /\ Uplink.pcm16_sample (3 # 2) < 0.
Proof.
  apply pcm16_sample_overflow_wraps; vm_compute; congruence.
Defined.

(** ** Tokens, fillers and pace *)

Section TokenFacts.

Import Speech.

Lemma noSpace_snoc (cur : string) (c : ascii) :
  Shape.noSpace cur = true -> isSpace c = false ->
  Shape.noSpace (cur ++ String c EmptyString) = true.
Proof.
  intros Hc Hs. induction cur as [| d cur IH]; simpl in *.
  - rewrite Hs. reflexivity.
  - apply andb_true_iff in Hc. destruct Hc as [Hd Hc].
    rewrite Hd, (IH Hc). reflexivity.
Qed.

Lemma snoc_not_empty (cur : string) (c : ascii) :
  (cur ++ String c EmptyString)%string <> EmptyString.
Proof. destruct cur; discriminate. Qed.

(** Every token is a non-empty run free of white space, provided the
    run being read is. *)
Lemma splitWords_tokens (s cur w : string) :
  Shape.noSpace cur = true ->
  In w (splitWords cur s) -> w <> EmptyString /\ Shape.noSpace w = true.
Proof.
  revert cur. induction s as [| c s IH]; intros cur Hc Hin; simpl in Hin.
  - destruct cur; simpl in Hin; [contradiction |].
    destruct Hin as [<- | []]. split; [discriminate | exact Hc].
  - destruct (isSpace c) eqn:Hs.
    + destruct cur as [| d cur'].
      * apply (IH EmptyString); [reflexivity | exact Hin].
      * destruct Hin as [<- | Hin].
        -- split; [discriminate | exact Hc].
        -- apply (IH EmptyString); [reflexivity | exact Hin].
    + apply (IH (cur ++ String c EmptyString)%string);
        [apply noSpace_snoc; assumption | exact Hin].
Qed.

Lemma fold_left_lower (l : list string) (t : string) :
  fold_left (fun t r => (t ++ toLowerCase r)%string) l t
  = fold_left (fun t r => (t ++ r)%string) (map toLowerCase l) t.
Proof.
  revert t. induction l as [| r l IH]; intros t; simpl; [reflexivity |].
  apply IH.
Qed.

Lemma skipn_map {A B} (f : A -> B) (n : nat) (l : list A) :
  skipn n (map f l) = map f (skipn n l).
Proof.
  revert l. induction n as [| n IH]; intros [| x l]; simpl; auto.
Qed.

Lemma accumulate_ok (acc : Acc) (ev : ResultEvent) :
  Shape.accOk acc ->
  Shape.accOk (accumulate acc ev)
  /\ wordCount acc <= wordCount (accumulate acc ev)
  /\ fillerCount acc <= fillerCount (accumulate acc ev)
  /\ startTime (accumulate acc ev) = startTime acc.
Proof.
  unfold Shape.accOk, accumulate. simpl. intros H.
  pose proof (filter_length_le (includes fillerLexicon) (wordsOf ev)).
  lia.
Qed.

(** The pace is the integer nearest to the words per elapsed minute. *)
Lemma wpmAt_nearest (acc : Acc) (now : Z) :
  let e := now - startTime acc in
  (e <= 0 -> wpmAt acc now = 0)
  /\ (0 < e ->
      2 * e * wpmAt acc now - e <= 120000 * wordCount acc
      /\ 120000 * wordCount acc < 2 * e * wpmAt acc now + e).
Proof.
  intros e. unfold wpmAt. fold e.
  destruct (Qlt_le_dec 0 (e # 60000)) as [Hq | Hq].
  - assert (He : 0 < e) by (unfold Qlt in Hq; simpl in Hq; lia).
    split; [lia |]. intros _.
    unfold JsNum.Math_round.
    set (q := (inject_Z (wordCount acc) / (e # 60000) + (1 # 2))%Q).
    pose proof (Qfloor_le q) as H1. pose proof (Qlt_floor q) as H2.
    destruct e as [| p | p]; try lia.
    generalize dependent (Qfloor q). intros w H1 H2.
    unfold q, Qle, Qlt, Qdiv, Qinv, Qmult, Qplus, inject_Z in H1, H2.
    simpl in H1, H2. rewrite !Pos2Z.inj_mul in H1, H2.
    split; nia.
  - assert (He : e <= 0) by (unfold Qle in Hq; simpl in Hq; lia).
    split; [reflexivity | lia].
Qed.

End TokenFacts.

(** X9.  Every token of a batch is non-empty and contains no white
    space. *)
Theorem tokens_are_words (ev : Speech.ResultEvent) (w : string) :
  In w (Speech.wordsOf ev) ->
  w <> EmptyString /\ Shape.noSpace w = true.
Proof.
  intros H. apply (splitWords_tokens _ EmptyString w eq_refl H).
Qed.

Lemma tokens_are_words_witness :
  "uh" <> EmptyString /\ Shape.noSpace "uh" = true.
Proof.
  apply (tokens_are_words (Speech.mkResultEvent 0 ["Um  uh"])).
  right. left. reflexivity.
Defined.

(** X10.  The two-word entry of the filler lexicon, [you know], is
    never matched: the fillers counted in a batch are exactly its
    tokens [um], [uh], [like] and [basically]. *)
Theorem two_word_filler_never_counted (ev : Speech.ResultEvent) :
  ~ In "you know" (Speech.wordsOf ev)
  /\ filter (Speech.includes Speech.fillerLexicon) (Speech.wordsOf ev)
     = filter (Speech.includes ["um"; "uh"; "like"; "basically"])
              (Speech.wordsOf ev).
Proof.
  assert (Hno : ~ In "you know" (Speech.wordsOf ev)).
  { intros H. apply splitWords_tokens in H; [| reflexivity].
    destruct H as [_ H]. vm_compute in H. discriminate. }
  split; [exact Hno |].
  apply filter_ext_in. intros w Hw.
  unfold Speech.includes, Speech.fillerLexicon. simpl.
  destruct (String.eqb_spec w "you know") as [-> | _];
    [contradiction |].
  rewrite !orb_false_r. reflexivity.
Qed.

Lemma two_word_filler_never_counted_witness :
  ~ In "you know"
       (Speech.wordsOf (Speech.mkResultEvent 0 ["You know like"]))
  /\ List.length
       (filter (Speech.includes Speech.fillerLexicon)
          (Speech.wordsOf (Speech.mkResultEvent 0 ["You know like"])))
     = 1%nat.
Proof.
  destruct (two_word_filler_never_counted
              (Speech.mkResultEvent 0 ["You know like"])) as [H1 H2].
  split; [exact H1 | rewrite H2; reflexivity].
Defined.

(** X11.  Over any sequence of batches the cumulative filler count
    stays between 0 and the cumulative word count, neither count ever
    decreases, and the start time is kept. *)
Theorem filler_count_bounded (acc : Speech.Acc)
    (evs : list Speech.ResultEvent) :
  Shape.accOk acc ->
  let acc' := fold_left Speech.accumulate evs acc in
  Shape.accOk acc'
  /\ Speech.wordCount acc <= Speech.wordCount acc'
  /\ Speech.fillerCount acc <= Speech.fillerCount acc'
  /\ Speech.startTime acc' = Speech.startTime acc.
Proof.
  revert acc. induction evs as [| ev evs IH]; intros acc H; simpl.
  - split; [exact H | split; [lia | split; [lia | reflexivity]]].
  - destruct (accumulate_ok acc ev H) as (H1 & H2 & H3 & H4).
    destruct (IH _ H1) as (G1 & G2 & G3 & G4).
    split; [exact G1 | split; [lia | split; [lia | congruence]]].
Qed.

Lemma filler_count_bounded_witness :
  Shape.accOk
    (fold_left Speech.accumulate
       [Speech.mkResultEvent 0 ["um so like"];
        Speech.mkResultEvent 0 ["you know"]]
       (Speech.mkAcc 0 0 0)).
Proof.
  apply filler_count_bounded. unfold Shape.accOk. simpl. lia.
Defined.



(** X13.  Letter case does not matter: two result events with the same
    index whose transcripts agree once lower-cased change the
    accumulators and the record in the same way. *)
Theorem transcripts_compared_in_lower_case (acc : Speech.Acc)
    (ev ev' : Speech.ResultEvent) (now : Z) (prev : Metrics) :
  Speech.resultIndex ev = Speech.resultIndex ev' ->
  map Speech.toLowerCase (Speech.results ev)
  = map Speech.toLowerCase (Speech.results ev') ->
  Speech.onresult acc ev now prev = Speech.onresult acc ev' now prev.
Proof.
  intros Hi Hr.
  assert (E : Speech.wordsOf ev = Speech.wordsOf ev').
  { unfold Speech.wordsOf, Speech.transcriptOf.
    rewrite !fold_left_lower, <- !skipn_map, Hi, Hr. reflexivity. }
  unfold Speech.onresult, Speech.rejected, Speech.accumulate.
  rewrite E. reflexivity.
Qed.

Lemma transcripts_compared_in_lower_case_witness :
  Speech.onresult (Speech.mkAcc 0 0 0)
    (Speech.mkResultEvent 0 ["UM Like that"]) 2000 defaultMetrics
  = Speech.onresult (Speech.mkAcc 0 0 0)
      (Speech.mkResultEvent 0 ["um like THAT"]) 2000 defaultMetrics.
Proof.
  apply transcripts_compared_in_lower_case; reflexivity.
Defined.

(** ** The label chosen by the expression sampler *)

Section ExpressionFacts.

Import Expression.
Local Open Scope Q_scope.

(** Folding the insertions over [l] from a list headed by [h]: the head
    of the result is [h] when nothing in [l] is strictly above it, and
    otherwise the first element of [l] that is above [h] and above
    everything before it, and at least as high as everything after. *)
Lemma fold_insert_head (l : Expressions) (h : string * Q) (t : Expressions) :
  exists top rest,
    fold_left (fun acc x => insertDesc x acc) l (h :: t) = top :: rest
    /\ ((top = h /\ forall x, In x l -> snd x <= snd h)
        \/ exists l1 l2,
             l = l1 ++ top :: l2
             /\ snd h < snd top
             /\ (forall x, In x l1 -> snd x < snd top)
             /\ (forall x, In x l2 -> snd x <= snd top)).
Proof.
  revert h t. induction l as [| x l IH]; intros h t; simpl.
  - exists h, t. split; [reflexivity |]. left. split; [reflexivity |].
    intros x [].
  - destruct (Qle_bool (snd x) (snd h)) eqn:Hb.
    + apply Qle_bool_iff in Hb.
      destruct (IH h (insertDesc x t)) as (top & rest & E & H).
      exists top, rest. split; [exact E |].
      destruct H as [[-> Hall] | (l1 & l2 & -> & Hh & H1 & H2)].
      * left. split; [reflexivity |].
        intros y [<- | Hy]; [exact Hb | apply Hall, Hy].
      * right. exists (x :: l1), l2. repeat split; try assumption.
        intros y [<- | Hy]; [lra | apply H1, Hy].
    + assert (Hlt : snd h < snd x).
      { destruct (Qlt_le_dec (snd h) (snd x)) as [H | H]; [exact H |].
        apply Qle_bool_iff in H. congruence. }
      destruct (IH x (h :: t)) as (top & rest & E & H).
      exists top, rest. split; [exact E |].
      right.
      destruct H as [[-> Hall] | (l1 & l2 & -> & Hh & H1 & H2)].
      * exists [], l. repeat split; try assumption. intros y [].
      * exists (x :: l1), l2. repeat split; try assumption; [lra |].
        intros y [<- | Hy]; [exact Hh | apply H1, Hy].
Qed.

Lemma sortDesc_head (ex : Expressions) :
  ex <> [] ->
  exists top rest l1 l2,
    sortDesc ex = top :: rest
    /\ ex = l1 ++ top :: l2
    /\ (forall x, In x l1 -> snd x < snd top)
    /\ (forall x, In x l2 -> snd x <= snd top).
Proof.
  destruct ex as [| x l]; [congruence |]. intros _.
  unfold sortDesc. simpl.
  destruct (fold_insert_head l x []) as (top & rest & E & H).
  exists top, rest.
  destruct H as [[-> Hall] | (l1 & l2 & -> & Hh & H1 & H2)].
  - exists [], l. repeat split; try assumption. intros y [].
  - exists (x :: l1), l2. repeat split; try assumption.
    intros y [<- | Hy]; [exact Hh | apply H1, Hy].
Qed.

End ExpressionFacts.

(** X14.  When a classification completes with a non-empty expression
    table, the emotion written is the capitalised label of highest
    confidence, the first in key order among equals; the other fields
    of the record are kept. *)
Theorem emotion_is_top_expression (ex : Expression.Expressions)
    (prev : Metrics) :
  ex <> [] ->
  exists l1 e c l2,
    ex = l1 ++ (e, c) :: l2
    /\ (forall x, In x l1 -> (snd x < c)%Q)
    /\ (forall x, In x l2 -> (snd x <= c)%Q)
    /\ Expression.completed (Some ex) prev
       = {| posture := posture prev; headTilt := headTilt prev;
            eyeContact := eyeContact prev;
            emotion := Expression.capitalize e;
            wpm := wpm prev; fillers := fillers prev;
            volume := volume prev; pitch := pitch prev; tone := tone prev |}.
Proof.
  intros Hne.
  destruct (sortDesc_head ex Hne) as ([e c] & rest & l1 & l2 & E & -> & H1 & H2).
  exists l1, e, c, l2. repeat split; try assumption.
  unfold Expression.completed. rewrite E. reflexivity.
Qed.

Lemma emotion_is_top_expression_witness :
  exists l1 e c l2,
    [("neutral", 1 # 10); ("happy", 8 # 10); ("sad", 8 # 10)]%Q
    = l1 ++ (e, c) :: l2
    /\ (forall x, In x l1 -> (snd x < c)%Q)
    /\ (forall x, In x l2 -> (snd x <= c)%Q)
    /\ Expression.completed
         (Some [("neutral", 1 # 10); ("happy", 8 # 10); ("sad", 8 # 10)]%Q)
         defaultMetrics
       = {| posture := 0; headTilt := 0; eyeContact := "Unknown";
            emotion := Expression.capitalize e;
            wpm := 0; fillers := 0; volume := 0; pitch := 0;
            tone := "Neutral" |}.
Proof.
  apply (emotion_is_top_expression
           [("neutral", 1 # 10); ("happy", 8 # 10); ("sad", 8 # 10)]%Q
           defaultMetrics).
  discriminate.
Defined.

(** ** The teardown under any faults *)

Section TeardownTrace.

Import Teardown.
Variable throws : Call -> bool.

Lemma untilThrow_app (cs1 cs2 : list Call) :
  Shape.untilThrow throws (cs1 ++ cs2)
  = if existsb throws cs1 then Shape.untilThrow throws cs1
    else cs1 ++ Shape.untilThrow throws cs2.
Proof.
  induction cs1 as [| c cs1 IH]; simpl; [reflexivity |].
  destruct (throws c); simpl; [reflexivity |].
  rewrite IH. destruct (existsb throws cs1); reflexivity.
Qed.

Lemma untilThrow_none (cs : list Call) :
  existsb throws cs = false -> Shape.untilThrow throws cs = cs.
Proof.
  induction cs as [| c cs IH]; simpl; [reflexivity |].
  destruct (throws c); simpl; [discriminate |].
  intros H. rewrite (IH H). reflexivity.
Qed.

Lemma performs_call (r : Refs) (c : Call) :
  Shape.performsAt throws r (call throws c) [c].
Proof.
  intros e <-. unfold call. simpl. destruct (throws c); reflexivity.
Qed.

Lemma performs_skip (r : Refs) : Shape.performsAt throws r (ret tt) [].
Proof.
  intros e <-. unfold ret. simpl. rewrite app_nil_r.
  destruct e; reflexivity.
Qed.

Lemma performs_bind (r : Refs) (m k : JS unit) (cs1 cs2 : list Call) :
  Shape.performsAt throws r m cs1 -> Shape.performsAt throws r k cs2 ->
  Shape.performsAt throws r (m ;; k) (cs1 ++ cs2).
Proof.
  intros Hm Hk e He. unfold bind. rewrite (Hm e He).
  rewrite existsb_app, untilThrow_app.
  destruct (existsb throws cs1) eqn:E1; simpl; [reflexivity |].
  rewrite (untilThrow_none cs1 E1).
  rewrite (Hk (mkEnv r (calls e ++ cs1)) eq_refl). simpl.
  rewrite app_assoc. reflexivity.
Qed.

Lemma performs_forEach (r : Refs) (f : nat -> Call) (l : list nat) :
  Shape.performsAt throws r (forEach (fun t => call throws (f t)) l)
                   (map f l).
Proof.
  induction l as [| t l IH]; simpl.
  - apply performs_skip.
  - apply (performs_bind r _ _ [f t] (map f l));
      [apply performs_call | exact IH].
Qed.

Lemma performs_optional {A} (r : Refs) (ref : Refs -> option A)
    (k : A -> JS unit) (cs : A -> list Call) :
  (forall h, ref r = Some h -> Shape.performsAt throws r (k h) (cs h)) ->
  Shape.performsAt throws r (optional ref k)
    (match ref r with Some h => cs h | None => [] end).
Proof.
  intros H e He. unfold optional. rewrite He.
  destruct (ref r) as [h |] eqn:E.
  - apply (H h eq_refl e He).
  - apply (performs_skip r e He).
Qed.

End TeardownTrace.

(** X15.  Whatever calls throw, [stopAudioStreaming] returns normally
    with the four audio refs cleared and the recognition ref kept, and
    the calls it has attempted are those of a full teardown, in order,
    up to and including the first one that throws. *)
Theorem teardown_attempts_until_first_throw
    (throws : Teardown.Call -> bool) (e : Teardown.Env) :
  Teardown.stopAudioStreaming throws e
  = (Teardown.Normal tt,
     Teardown.mkEnv
       (Teardown.clearAudioRefs (Teardown.refs e))
       (Teardown.calls e
        ++ Shape.untilThrow throws
             (Teardown.audioTeardownCalls (Teardown.refs e)))).
Proof.
  unfold Teardown.stopAudioStreaming, Teardown.tryFinally, Teardown.tryCatch.
  match goal with
  | |- context [Teardown.bind ?m ?k e] =>
      assert (H : Shape.performsAt throws (Teardown.refs e)
                    (Teardown.bind m k)
                    (Teardown.audioTeardownCalls (Teardown.refs e)))
  end.
  { unfold Teardown.audioTeardownCalls.
    repeat apply performs_bind.
    - apply (performs_optional throws (Teardown.refs e) Teardown.wsRef _
               (fun ws => [Teardown.WsClose ws])).
      intros h _. apply performs_call.
    - apply (performs_optional throws (Teardown.refs e)
               Teardown.audioStreamRef _ (map Teardown.TrackStop)).
      intros ts _. apply performs_forEach.
    - apply (performs_optional throws (Teardown.refs e)
               Teardown.processorRef _
               (fun p => [Teardown.ProcessorDisconnect p])).
      intros h _. apply performs_call.
    - apply (performs_optional throws (Teardown.refs e)
               Teardown.audioCtxRef _
               (fun c => [Teardown.AudioCtxClose c])).
      intros h _. apply performs_call. }
  rewrite (H e eq_refl).
  destruct (existsb throws _); reflexivity.
Qed.

(** ** Invariants of the event system *)

Section MachineFacts.

Import Session.

Ltac world w :=
  destruct w as [[?v ?sd ?sid] [?m ?a ?s ?er] [?rf ?cl]
                 [?rc ?so ?pf ?ef ?mp ?lp ?ep] [?rq ?st ?al] ?n].

Lemma pose_wellFormed (a : Q) (res : Pose.Results) (prev : Metrics) :
  (-180 < a)%Q -> (a <= 180)%Q ->
  Shape.wellFormed prev -> Shape.wellFormed (Pose.onResults a res prev).
Proof.
  intros Hlo Hhi Hp. unfold Pose.onResults.
  destruct (Pose.poseLandmarks res) as [lm |]; [| exact Hp].
  destruct (nth_error lm 11) as [L |]; [| exact Hp].
  destruct (nth_error lm 12) as [R |]; [| exact Hp].
  destruct (nth_error lm 0) as [nose |]; [| exact Hp].
  destruct Hp as (_ & _ & _ & Hw & Hf).
  unfold Shape.wellFormed. simpl.
  split; [apply posture_range_aux |].
  split.
  { unfold Pose.normalizeTilt.
    destruct (shiftTilt_range a Hlo Hhi) as [H1 H2].
    apply (toFixed0_bounds _ 90); [lia | exact H1 | exact H2]. }
  split; [| split; assumption].
  unfold Pose.eyeContactOf.
  destruct (Qlt_le_dec _ _); [right; left | right; right]; reflexivity.
Qed.

Lemma emotion_wellFormed (d : option Expression.Expressions)
    (prev : Metrics) :
  Shape.wellFormed prev -> Shape.wellFormed (Expression.completed d prev).
Proof.
  intros Hp. unfold Expression.completed.
  destruct d as [ex |]; [| exact Hp].
  destruct (Expression.sortDesc ex) as [| [e c] r]; exact Hp.
Qed.

Lemma speech_wellFormed (acc : Speech.Acc) (ev : Speech.ResultEvent)
    (now : Z) (prev : Metrics) :
  Shape.accOk acc -> Shape.wellFormed prev ->
  Shape.wellFormed (snd (Speech.onresult acc ev now prev)).
Proof.
  intros Ha Hp. unfold Speech.onresult.
  destruct (Speech.rejected ev _); [exact Hp |].
  destruct Hp as (H1 & H2 & H3 & _ & _).
  destruct (accumulate_ok acc ev Ha) as (Hok & _).
  unfold Shape.wellFormed. simpl.
  repeat split; try apply H1; try apply H2; try exact H3;
    try apply Hok.
  destruct (wpmAt_nearest (Speech.accumulate acc ev) now) as [H0 Hn].
  unfold Shape.accOk in Hok.
  destruct (Z_le_gt_dec (now - Speech.startTime (Speech.accumulate acc ev)) 0)
    as [Hle | Hgt].
  - rewrite (H0 Hle). lia.
  - destruct (Hn ltac:(lia)) as [Hx Hy]. nia.
Qed.

(** A step keeps the record and the accumulators in their ranges. *)
Lemma step_dataOk (w : World) (e : Event) :
  Shape.angleOk e -> Shape.dataOk w -> Shape.dataOk (step w e).
Proof.
  intros He [Hm Hacc]. world w. simpl in Hm, Hacc.
  destruct e; simpl in He |- *; unfold Shape.dataOk; simpl.
  - unfold handleSessionToggle, mounted. simpl.
    destruct v; simpl; try (split; assumption).
    destruct a; simpl; [split; assumption |].
    unfold startSpeechRecognition. destruct supported; simpl.
    + split; [exact Hm |]. intros acc [= <-].
      unfold Shape.accOk. simpl. lia.
    + split; assumption.
  - unfold onFrame, mounted. simpl. destruct v, a; simpl; split; assumption.
  - unfold onResults. simpl. destruct pf; [split; assumption |].
    destruct v; simpl; try (split; assumption).
    split; [| exact Hacc]. destruct He. apply pose_wellFormed; assumption.
  - unfold emotionTick, mounted. simpl.
    destruct v; simpl; try (split; assumption).
    destruct (Expression.tickStarts a video); split; assumption.
  - unfold emotionCompleted. simpl. destruct ef; [split; assumption |].
    destruct v; simpl; try (split; assumption).
    split; [| exact Hacc]. apply emotion_wellFormed. exact Hm.
  - unfold onresult. simpl. destruct rc as [acc |]; [| split; assumption].
    pose proof (Hacc acc eq_refl) as Hok.
    assert (Hacc' : forall acc0,
               Some (fst (Speech.onresult acc ev now m)) = Some acc0 ->
               Shape.accOk acc0).
    { intros acc0 [= <-]. rewrite onresult_accumulates.
      apply accumulate_ok. exact Hok. }
    destruct v; simpl; split; try assumption.
    apply speech_wellFormed; assumption.
  - unfold micSettled. simpl. destruct mp; [split; assumption |].
    destruct granted; simpl; [split; assumption |].
    destruct v; split; assumption.
  - unfold onopen. simpl.
    destruct so as [[ws sd0 []] |]; try (split; assumption).
    destruct sd0; split; assumption.
  - unfold onaudioprocess. simpl.
    destruct (Teardown.processorRef rf); [| split; assumption].
    destruct so as [sk |]; [| split; assumption].
    destruct (Uplink.onaudioprocess (readyState sk) input); split; assumption.
  - unfold toggleSettled. simpl.
    destruct (nth_error lp i); [| split; assumption].
    destruct reply; simpl; [| split; assumption].
    destruct v; split; assumption.
  - unfold endSessionSettled. simpl.
    destruct (nth_error ep i); [| split; assumption].
    destruct reply; split; assumption.
Qed.

Lemma run_dataOk (evs : list Event) (w : World) :
  Forall Shape.angleOk evs -> Shape.dataOk w -> Shape.dataOk (run w evs).
Proof.
  revert w. induction evs as [| e evs IH]; intros w Hf Hw; simpl.
  - exact Hw.
  - inversion Hf as [| ? ? He Hf']; subst.
    apply IH; [exact Hf' | apply step_dataOk; assumption].
Qed.

Lemma init_dataOk : Shape.dataOk init.
Proof.
  split.
  - unfold Shape.wellFormed. simpl. repeat split; try lia. left. reflexivity.
  - intros acc H. discriminate H.
Qed.

End MachineFacts.

(** X16.  In every state reached from a fresh training view by events
    whose pose angles are angles [Math.atan2] can return, the record is
    in its ranges: posture in [0,100], head tilt in [-90,90], eye
    contact one of Unknown, Good and Looking Away, pace and filler count
    not negative; and the filler count of the recognition object is
    between 0 and its word count. *)
Theorem record_stays_in_range (evs : list Session.Event) :
  Forall Shape.angleOk evs ->
  Shape.wellFormed
    (Session.metrics (Session.page (Session.run Session.init evs)))
  /\ forall acc,
       Session.recognition (Session.flight (Session.run Session.init evs))
       = Some acc ->
       Shape.accOk acc.
Proof.
  intros H. apply (run_dataOk evs Session.init H init_dataOk).
Qed.

Lemma record_stays_in_range_witness :
  Shape.wellFormed
    (Session.metrics
       (Session.page
          (Session.run Session.init
             [Session.Click "abc1234" 0 true; Session.CameraFrame;
              Session.PoseResults 135
                (Pose.mkResults
                   (Some (repeat (Pose.mkLandmark (1 # 2) (1 # 2)) 13)));
              Session.SpeechResult
                (Speech.mkResultEvent 0 ["um well so"]) 2000]))).
Proof.
  apply record_stays_in_range.
  repeat constructor; simpl; auto; vm_compute; congruence.
Defined.

Section OwnershipFacts.

Import Session.

Ltac world w :=
  destruct w as [[?v ?sd ?sid] [?m ?a ?s ?er] [?rf ?cl]
                 [?rc ?so ?pf ?ef ?mp ?lp ?ep] [?rq ?st ?al] ?n].




End OwnershipFacts.


Section SocketFacts.

Import Session.

Ltac world w :=
  destruct w as [[?v ?sd ?sid] [?m ?a ?s ?er] [[?rr ?ws ?ctx ?pr ?strm] ?cl]
                 [?rc ?so ?pf ?ef ?mp ?lp ?ep] [?rq ?st ?al] ?n].

Lemma lastBind_snoc_bind (l : list WsMessage) (sid : string) :
  Shape.lastBind (l ++ [Bind sid]) = Some sid.
Proof.
  induction l as [| [b | f] l IH]; simpl; [reflexivity | |];
    rewrite IH; reflexivity.
Qed.

Lemma lastBind_snoc_frame (l : list WsMessage) (f : list Z) :
  Shape.lastBind (l ++ [Frame f]) = Shape.lastBind l.
Proof.
  induction l as [| [b | g] l IH]; simpl; [reflexivity | |];
    rewrite IH; reflexivity.
Qed.

Lemma head_snoc_bind (l : list WsMessage) (sid : string) :
  match l with [] => True | m :: _ => exists s, m = Bind s end ->
  match l ++ [Bind sid] with
  | [] => True | m :: _ => exists s, m = Bind s
  end.
Proof. destruct l; simpl; eauto. Qed.

Lemma head_snoc_bound (l : list WsMessage) (m : WsMessage) (sid : string) :
  Shape.lastBind l = Some sid ->
  match l with [] => True | x :: _ => exists s, x = Bind s end ->
  match l ++ [m] with
  | [] => True | x :: _ => exists s, x = Bind s
  end.
Proof. destruct l; simpl; [discriminate | auto]. Qed.

Lemma step_socketOk (w : World) (e : Event) :
  Shape.socketOk w -> Shape.socketOk (step w e).
Proof.
  intros H. world w. unfold Shape.socketOk in *. simpl in H.
  destruct H as (Hc & Hd & He & Hi).
  destruct e; simpl.
  - (* the session button *)
    unfold handleSessionToggle, mounted. simpl.
    destruct v; simpl; try (exact (conj Hc (conj Hd (conj He Hi)))).
    destruct a; simpl.
    + destruct (Hc eq_refl) as (s0 & -> & [= ->]).
      destruct rr; simpl; rewrite Nat.eqb_refl; simpl.
      all: split; [discriminate |].
      all: split; [intros _ s1 [= <-]; reflexivity |].
      all: split; [| exact Hi].
      all: intros s1 [= <-]; simpl; split;
        [apply (He s0 eq_refl) | discriminate].
    + unfold startSpeechRecognition. destruct supported; simpl.
      all: split; [intros _; eexists; split; reflexivity |].
      all: split; [discriminate |].
      all: split; [| exact Hi].
      all: intros s1 [= <-]; simpl; split; discriminate.
  - unfold onFrame, mounted. simpl.
    destruct v, a; simpl; exact (conj Hc (conj Hd (conj He Hi))).
  - unfold onResults. simpl. destruct pf; [exact (conj Hc (conj Hd (conj He Hi))) |].
    destruct v; simpl; exact (conj Hc (conj Hd (conj He Hi))).
  - unfold emotionTick, mounted. simpl.
    destruct v; simpl; try (exact (conj Hc (conj Hd (conj He Hi)))).
    destruct (Expression.tickStarts a video); simpl;
      exact (conj Hc (conj Hd (conj He Hi))).
  - unfold emotionCompleted. simpl. destruct ef; [exact (conj Hc (conj Hd (conj He Hi))) |].
    destruct v; simpl; exact (conj Hc (conj Hd (conj He Hi))).
  - unfold onresult. simpl.
    destruct rc as [acc |]; [| exact (conj Hc (conj Hd (conj He Hi)))].
    destruct v; simpl; exact (conj Hc (conj Hd (conj He Hi))).
  - unfold micSettled. simpl. destruct mp; [exact (conj Hc (conj Hd (conj He Hi))) |].
    destruct granted; simpl; [exact (conj Hc (conj Hd (conj He Hi))) |].
    destruct v; simpl; exact (conj Hc (conj Hd (conj He Hi))).
  - (* the socket opens *)
    unfold onopen. simpl.
    destruct so as [[wsk sd0 []] |]; try (exact (conj Hc (conj Hd (conj He Hi)))).
    destruct (He _ eq_refl) as [Hne _]. simpl in Hne.
    destruct sd0 as [| c0 sd0]; [congruence |]. simpl.
    split; [| split; [| split]].
    + intros Ha. destruct (Hc Ha) as (s0 & [= <-] & Hw).
      eexists. split; [reflexivity | exact Hw].
    + intros Ha s1 _. specialize (Hd Ha _ eq_refl). discriminate Hd.
    + intros s1 [= <-]. simpl. split; [discriminate |].
      intros _. apply lastBind_snoc_bind.
    + apply head_snoc_bind. exact Hi.
  - (* an audio chunk *)
    unfold onaudioprocess. simpl.
    destruct pr; [| exact (conj Hc (conj Hd (conj He Hi)))].
    destruct so as [sk |]; [| exact (conj Hc (conj Hd (conj He Hi)))].
    unfold Uplink.onaudioprocess.
    destruct (readyState sk) eqn:Hrs; simpl; try (exact (conj Hc (conj Hd (conj He Hi)))).
    destruct (He sk eq_refl) as [Hne Hb]. specialize (Hb Hrs).
    split; [exact Hc |]. split; [exact Hd |].
    split.
    + intros s1 [= <-]. split; [exact Hne |].
      intros _. rewrite lastBind_snoc_frame. exact Hb.
    + apply (head_snoc_bound _ _ _ Hb Hi).
  - unfold toggleSettled. simpl.
    destruct (nth_error lp i); [| exact (conj Hc (conj Hd (conj He Hi)))].
    destruct reply; simpl; [| exact (conj Hc (conj Hd (conj He Hi)))].
    destruct v; simpl; exact (conj Hc (conj Hd (conj He Hi))).
  - unfold endSessionSettled. simpl.
    destruct (nth_error ep i); [| exact (conj Hc (conj Hd (conj He Hi)))].
    destruct reply; simpl; exact (conj Hc (conj Hd (conj He Hi))).
Qed.

Lemma run_socketOk (evs : list Event) (w : World) :
  Shape.socketOk w -> Shape.socketOk (run w evs).
Proof.
  revert w. induction evs as [| e evs IH]; intros w Hw; simpl;
    [exact Hw | apply IH, step_socketOk, Hw].
Qed.

Lemma init_socketOk : Shape.socketOk init.
Proof.
  unfold Shape.socketOk. simpl.
  repeat split; try discriminate; intros s H; discriminate H.
Qed.

End SocketFacts.

Section WireFacts.

Import Session.

Ltac world w :=
  destruct w as [[?v ?sd ?sid] [?m ?a ?s ?er] [[?rr ?ws ?ctx ?pr ?strm] ?cl]
                 [?rc ?so ?pf ?ef ?mp ?lp ?ep] [?rq ?st ?al] ?n].

(** Outside a session an event other than the button sends nothing
    and starts no session. *)
Lemma idle_step (w : World) (e : Event) :
  Shape.socketOk w -> isSessionActive (page w) = false ->
  isClick e = false ->
  isSessionActive (page (step w e)) = false
  /\ sent (out (step w e)) = sent (out w).
Proof.
  intros (_ & Hd & _ & _) Ha Hc. specialize (Hd Ha).
  world w. simpl in *. subst a.
  destruct e; try discriminate; simpl.
  - unfold onFrame, mounted. simpl. destruct v; split; reflexivity.
  - unfold onResults. simpl. destruct pf; [split; reflexivity |].
    destruct v; split; reflexivity.
  - unfold emotionTick, mounted, Expression.tickStarts. simpl.
    destruct v; simpl; try (split; reflexivity).
    destruct video; split; reflexivity.
  - unfold emotionCompleted. simpl. destruct ef; [split; reflexivity |].
    destruct v; split; reflexivity.
  - unfold onresult. simpl. destruct rc; [| split; reflexivity].
    destruct v; split; reflexivity.
  - unfold micSettled. simpl. destruct mp; [split; reflexivity |].
    destruct granted; simpl; [split; reflexivity |].
    destruct v; split; reflexivity.
  - unfold onopen. simpl. destruct so as [[wsk sd0 rs] |];
      [| split; reflexivity].
    specialize (Hd _ eq_refl). simpl in Hd. subst rs. split; reflexivity.
  - unfold onaudioprocess. simpl. destruct pr; [| split; reflexivity].
    destruct so as [sk |]; [| split; reflexivity].
    rewrite (Hd sk eq_refl). split; reflexivity.
  - unfold toggleSettled. simpl.
    destruct (nth_error lp i); [| split; reflexivity].
    destruct reply; simpl; [| split; reflexivity].
    destruct v; split; reflexivity.
  - unfold endSessionSettled. simpl.
    destruct (nth_error ep i); [| split; reflexivity].
    destruct reply; split; reflexivity.
Qed.

Lemma idle_run (evs : list Event) (w : World) :
  Shape.socketOk w -> isSessionActive (page w) = false ->
  noClick evs = true ->
  isSessionActive (page (run w evs)) = false
  /\ sent (out (run w evs)) = sent (out w).
Proof.
  revert w. induction evs as [| e evs IH]; intros w Hs Ha Hn; simpl.
  - split; [exact Ha | reflexivity].
  - simpl in Hn. apply andb_true_iff in Hn. destruct Hn as [He Hn].
    assert (Hc : isClick e = false)
      by (destruct (isClick e); [discriminate | reflexivity]).
    destruct (idle_step w e Hs Ha Hc) as [Ha' Hs'].
    destruct (IH (step w e) (step_socketOk w e Hs) Ha' Hn) as [G1 G2].
    split; [exact G1 | congruence].
Qed.





(** An event that is neither the button nor the answer to the first
    submission leaves the pending first submissions and the requests
    alone. *)
Lemma quiet_step (w : World) (e : Event) :
  Shape.quiet e = true ->
  logPending (flight (step w e)) = logPending (flight w)
  /\ requests (out (step w e)) = requests (out w).
Proof.
  intros Hq. world w. destruct e; try discriminate; simpl.
  - unfold onFrame, mounted. simpl. destruct v, a; split; reflexivity.
  - unfold onResults. simpl. destruct pf; [split; reflexivity |].
    destruct v; split; reflexivity.
  - unfold emotionTick, mounted. simpl.
    destruct v; simpl; try (split; reflexivity).
    destruct (Expression.tickStarts a video); split; reflexivity.
  - unfold emotionCompleted. simpl. destruct ef; [split; reflexivity |].
    destruct v; split; reflexivity.
  - unfold onresult. simpl. destruct rc; [| split; reflexivity].
    destruct v; split; reflexivity.
  - unfold micSettled. simpl. destruct mp; [split; reflexivity |].
    destruct granted; simpl; [split; reflexivity |].
    destruct v; split; reflexivity.
  - unfold onopen. simpl.
    destruct so as [[wsk sd0 []] |]; try (split; reflexivity).
    destruct sd0; split; reflexivity.
  - unfold onaudioprocess. simpl. destruct pr; [| split; reflexivity].
    destruct so as [sk |]; [| split; reflexivity].
    destruct (Uplink.onaudioprocess (readyState sk) input);
      split; reflexivity.
  - unfold endSessionSettled. simpl.
    destruct (nth_error ep i); [| split; reflexivity].
    destruct reply; split; reflexivity.
Qed.

Lemma quiet_run (evs : list Event) (w : World) :
  forallb Shape.quiet evs = true ->
  logPending (flight (run w evs)) = logPending (flight w)
  /\ requests (out (run w evs)) = requests (out w).
Proof.
  revert w. induction evs as [| e evs IH]; intros w Hq; simpl.
  - split; reflexivity.
  - simpl in Hq. apply andb_true_iff in Hq. destruct Hq as [He Hq].
    destruct (quiet_step w e He) as [H1 H2].
    destruct (IH (step w e) Hq) as [G1 G2].
    split; congruence.
Qed.

(** The start branch of the toggle, as seen by the socket. *)
Lemma toggle_start (w : World) (rnd : string) (now : Z) (sup : bool) :
  mounted w = true -> isSessionActive (page w) = false ->
  let w1 := handleSessionToggle rnd now sup w in
  isSessionActive (page w1) = true
  /\ sessionId (page w1) = Some ("session_" ++ rnd)%string
  /\ sent (out w1) = sent (out w)
  /\ exists ws,
       socket (flight w1)
       = Some (mkSocket ws ("session_" ++ rnd)%string Uplink.CONNECTING)
       /\ Teardown.wsRef (Teardown.refs (env w1)) = Some ws.
Proof.
  world w. unfold mounted. simpl. intros Hv Ha. subst a.
  destruct v; try discriminate.
  unfold handleSessionToggle, mounted, startSpeechRecognition. simpl.
  destruct sup; simpl; repeat split; eexists; split; reflexivity.
Qed.

End WireFacts.

(** X18.  From a state in which no session is active until the next
    press of the session button, nothing is sent on the audio socket,
    whatever else happens (audio chunks, the socket opening, the
    microphone answer, answers of the submissions). *)
Theorem nothing_sent_outside_session (evs evs' : list Session.Event) :
  Session.isSessionActive
    (Session.page (Session.run Session.init evs)) = false ->
  Session.noClick evs' = true ->
  Session.sent
    (Session.out (Session.run (Session.run Session.init evs) evs'))
  = Session.sent (Session.out (Session.run Session.init evs)).
Proof.
  intros Ha Hn.
  apply (idle_run evs' _ (run_socketOk evs _ init_socketOk) Ha Hn).
Qed.

Lemma nothing_sent_outside_session_witness :
  Session.sent
    (Session.out
       (Session.run
          (Session.run Session.init
             [Session.Click "abc1234" 0 true; Session.MicSettled true;
              Session.SocketOpen; Session.AudioProcess [(1 # 4)%Q];
              Session.Click "" 9000 true])
          [Session.AudioProcess [(1 # 2)%Q]; Session.MicSettled true;
           Session.SocketOpen; Session.AudioProcess [(1 # 2)%Q]]))
  = [Session.Bind "session_abc1234"; Session.Frame [8191]].
Proof.
  rewrite nothing_sent_outside_session; reflexivity.
Defined.

(** X19.  The audio socket is spoken to in order: the first message
    ever sent is a bind message, and whenever the socket is open the
    latest bind message sent carries the session identifier that socket
    was created with, which is not empty, so that every audio frame
    follows the bind message of its own session. *)
Theorem frames_follow_their_bind (evs : list Session.Event) :
  let w := Session.run Session.init evs in
  match Session.sent (Session.out w) with
  | [] => True
  | m :: _ => exists sid, m = Session.Bind sid
  end
  /\ forall s,
       Session.socket (Session.flight w) = Some s ->
       Session.socketSid s <> EmptyString
       /\ (Session.readyState s = Uplink.OPEN ->
           Shape.lastBind (Session.sent (Session.out w))
           = Some (Session.socketSid s)).
Proof.
  intros w.
  destruct (run_socketOk evs _ init_socketOk) as (_ & _ & He & Hi).
  split; [exact Hi | exact He].
Qed.

Lemma frames_follow_their_bind_witness :
  let w :=
    Session.run Session.init
      [Session.Click "abc1234" 0 true; Session.MicSettled true;
       Session.SocketOpen; Session.AudioProcess [(1 # 4)%Q]] in
  Shape.lastBind (Session.sent (Session.out w)) = Some "session_abc1234".
Proof.
  intros w.
  destruct (frames_follow_their_bind
              [Session.Click "abc1234" 0 true; Session.MicSettled true;
               Session.SocketOpen; Session.AudioProcess [(1 # 4)%Q]])
    as [_ H].
  apply (H (Session.mkSocket 1 "session_abc1234" Uplink.OPEN) eq_refl).
  reflexivity.
Defined.

(** X20.  A start mints the identifier [session_] followed by the
    random suffix, stores it as the session identifier of the page and
    creates the socket with it; when that socket then opens, the bind
    message carrying this identifier is the next message sent. *)
Theorem start_binds_socket (w : Session.World) (rnd : string) (now : Z)
    (sup : bool) :
  Session.mounted w = true ->
  Session.isSessionActive (Session.page w) = false ->
  let w1 := Session.step w (Session.Click rnd now sup) in
  let w2 := Session.step w1 Session.SocketOpen in
  Session.isSessionActive (Session.page w1) = true
  /\ Session.sessionId (Session.page w1) = Some ("session_" ++ rnd)%string
  /\ Session.sent (Session.out w1) = Session.sent (Session.out w)
  /\ Session.sent (Session.out w2)
     = Session.sent (Session.out w)
       ++ [Session.Bind ("session_" ++ rnd)%string].
Proof.
  intros Hm Ha w1 w2.
  destruct (toggle_start w rnd now sup Hm Ha)
    as (H1 & H2 & H3 & ws & H4 & _).
  subst w2 w1.
  change (Session.step w (Session.Click rnd now sup))
    with (Session.handleSessionToggle rnd now sup w).
  set (w1 := Session.handleSessionToggle rnd now sup w) in *.
  repeat split; try assumption.
  change (Session.step w1 Session.SocketOpen) with (Session.onopen w1).
  unfold Session.onopen. rewrite H4. simpl.
  rewrite H3. reflexivity.
Qed.

Lemma start_binds_socket_witness :
  Session.sent
    (Session.out
       (Session.step
          (Session.step Session.init (Session.Click "abc1234" 0 true))
          Session.SocketOpen))
  = [Session.Bind "session_abc1234"].
Proof.
  destruct (start_binds_socket Session.init "abc1234" 0 true
              eq_refl eq_refl) as (_ & _ & _ & H).
  exact H.
Defined.


(** X22.  What is submitted is the record at the press of the button:
    whatever the producers write between the press that ends a session
    and the answer to its submission, both requests carry the metrics
    the record had at the press. *)
Theorem snapshot_taken_at_press (w : Session.World) (rnd : string) (now : Z)
    (sup : bool) (evs : list Session.Event) (reply : option string) :
  Session.mounted w = true ->
  Session.isSessionActive (Session.page w) = true ->
  forallb Shape.quiet evs = true ->
  let m := Session.metrics (Session.page w) in
  let i := List.length (Session.logPending (Session.flight w)) in
  let w2 :=
    Session.run w
      (Session.Click rnd now sup :: evs ++ [Session.LogSettled i reply]) in
  Session.requests (Session.out w2)
  = Session.requests (Session.out w)
    ++ [Session.mkPayload m None; Session.mkPayload m reply].
Proof.
  intros Hm Ha Hq m i w2.
  destruct (toggle_end w rnd now sup Hm Ha) as (_ & _ & Ho & Hl & _).
  set (w1 := Session.handleSessionToggle rnd now sup w) in *.
  destruct (quiet_run evs w1 Hq) as [Hl' Ho'].
  rewrite Hl in Hl'.
  destruct (toggle_settled (Session.run w1 evs) _ _ reply Hl')
    as (_ & _ & _ & Ho2 & _).
  assert (E : w2 = Session.toggleSettled i reply (Session.run w1 evs)).
  { unfold w2. simpl. unfold Session.run at 1.
    rewrite fold_left_app. reflexivity. }
  rewrite E. unfold i. rewrite Ho2. simpl.
  rewrite Ho', Ho. simpl. rewrite <- app_assoc. reflexivity.
Qed.

Lemma snapshot_taken_at_press_witness :
  Session.requests
    (Session.out
       (Session.run
          (Session.run Session.init
             [Session.Click "abc1234" 0 true; Session.EmotionTick (Some 4)])
          (Session.Click "" 9000 true
           :: [Session.EmotionCompleted (Some [("happy", 1%Q)])]
              ++ [Session.LogSettled 0 (Some "srv-1")])))
  = [Session.mkPayload defaultMetrics None;
     Session.mkPayload defaultMetrics (Some "srv-1")].
Proof.
  apply (snapshot_taken_at_press
           (Session.run Session.init
              [Session.Click "abc1234" 0 true; Session.EmotionTick (Some 4)])
           "" 9000 true
           [Session.EmotionCompleted (Some [("happy", 1%Q)])]
           (Some "srv-1") eq_refl eq_refl eq_refl).
Defined.

(** X23.  A session end answered twice creates two identifiers: the
    report view is opened with the identifier of the second answer,
    while the snapshot it shows carries the identifier of the first. *)
Theorem report_opens_with_second_identifier (w : Session.World)
    (rnd : string) (now : Z) (sup : bool) (id1 id2 : string) :
  Session.mounted w = true ->
  Session.isSessionActive (Session.page w) = true ->
  let m := Session.metrics (Session.page w) in
  let i := List.length (Session.logPending (Session.flight w)) in
  let j := List.length (Session.endPending (Session.flight w)) in
  Session.app
    (Session.run w [Session.Click rnd now sup;
                    Session.LogSettled i (Some id1);
                    Session.EndSettled j (Some id2)])
  = Session.mkApp Session.report
      (Some (Session.mkPayload m (Some id1))) (Some id2).
Proof.
  intros Hm Ha m i j.
  destruct (toggle_end w rnd now sup Hm Ha) as (_ & _ & _ & Hl & He).
  destruct (toggle_settled _ _ _ (Some id1) Hl) as (_ & _ & _ & _ & _ & He2).
  rewrite He in He2.
  destruct (end_settled _ _ _ (Some id2) He2) as [H _].
  exact H.
Qed.

Lemma report_opens_with_second_identifier_witness :
  Session.app
    (Session.run
       (Session.run Session.init [Session.Click "abc1234" 0 true])
       [Session.Click "" 9000 true; Session.LogSettled 0 (Some "srv-1");
        Session.EndSettled 0 (Some "srv-2")])
  = Session.mkApp Session.report
      (Some (Session.mkPayload defaultMetrics (Some "srv-1")))
      (Some "srv-2").
Proof.
  apply (report_opens_with_second_identifier
           (Session.run Session.init [Session.Click "abc1234" 0 true])
           "" 9000 true "srv-1" "srv-2" eq_refl eq_refl).
Defined.

(** ** The report page *)

Section ReportFacts.

Import ReportPage.

Lemma settled_idle (st : State) (replies : list (option (option Report))) :
  fetching st = false -> run st replies = st.
Proof.
  intros H. induction replies as [| r rs IH]; [reflexivity |].
  change (run (settled r st) rs = st).
  replace (settled r st) with st; [exact IH |].
  unfold settled. rewrite H. reflexivity.
Qed.

End ReportFacts.

(** X24.  Without a session identifier (absent or empty) the report
    page never leaves its loading screen, whatever arrives.  With one,
    the first answer ends the loading: the page shows the report when
    the answer holds one, and the no-report screen when the fetch
    failed or the answer holds none; later answers change nothing. *)
Theorem report_page_loading (sessionId : option string) :
  (ReportPage.truthy sessionId = false ->
   forall replies,
     ReportPage.render (ReportPage.run (ReportPage.mount sessionId) replies)
     = ReportPage.LoadingReport)
  /\ (ReportPage.truthy sessionId = true ->
      forall reply replies,
        ReportPage.render
          (ReportPage.run (ReportPage.mount sessionId) (reply :: replies))
        = match reply with
          | Some (Some r) =>
              ReportPage.Full r
                (ReportPage.insightLines (ReportPage.insights r))
          | _ => ReportPage.NoReportFound
          end).
Proof.
  split; intros H.
  - intros replies. rewrite settled_idle; [reflexivity |].
    unfold ReportPage.mount. simpl. exact H.
  - intros reply replies.
    change (ReportPage.run (ReportPage.mount sessionId) (reply :: replies))
      with (ReportPage.run
              (ReportPage.settled reply (ReportPage.mount sessionId))
              replies).
    unfold ReportPage.settled, ReportPage.mount. cbn [ReportPage.fetching].
    rewrite H. rewrite settled_idle by reflexivity.
    destruct reply as [[r |] |]; reflexivity.
Qed.

Lemma report_page_loading_witness :
  ReportPage.render
    (ReportPage.run (ReportPage.mount None)
       [Some (Some (ReportPage.mkReport "ok"
                      (ReportPage.mkInsights "a" "b" "c" None) []))])
  = ReportPage.LoadingReport
  /\ ReportPage.render
       (ReportPage.run (ReportPage.mount (Some "srv-2")) [None; Some None])
     = ReportPage.NoReportFound.
Proof.
  split.
  - apply (proj1 (report_page_loading None) eq_refl).
  - apply (proj2 (report_page_loading (Some "srv-2")) eq_refl None).
Defined.

(** X25.  The simulated trends of the chart have four points for five
    labels.  The posture trend rises (never falls from one point to the
    next) exactly when the posture is between 55 and 95, and the pace
    trend exactly when the pace is between 90 and 180. *)
Theorem trends_rise_only_in_band (posture0 wpm0 : Z) :
  (Shape.ascending (ReportPage.postureTrend posture0) = true
   <-> 55 <= posture0 <= 95)
  /\ (Shape.ascending (ReportPage.wpmTrend wpm0) = true
      <-> 90 <= wpm0 <= 180)
  /\ List.length (ReportPage.postureTrend posture0) = 4%nat
  /\ List.length (ReportPage.wpmTrend wpm0) = 4%nat
  /\ List.length ReportPage.labels = 5%nat.
Proof.
  unfold ReportPage.postureTrend, ReportPage.wpmTrend. simpl.
  rewrite !andb_true_r, !andb_true_iff, !Z.leb_le.
  repeat split; try lia.
Qed.

Lemma trends_rise_only_in_band_witness :
  Shape.ascending (ReportPage.postureTrend 70) = true
  /\ Shape.ascending (ReportPage.wpmTrend 120) = true.
Proof.
  destruct (trends_rise_only_in_band 70 120) as (H1 & H2 & _).
  split; [apply H1; lia | apply H2; lia].
Defined.

(** ** The home page *)

Section HomeFacts.

Import HomePage.

Lemma prefix_substring (n : nat) (s : string) :
  String.prefix (substring 0 n s) s = true.
Proof.
  revert n. induction s as [| c s IH]; intros [| n]; simpl; auto.
  destruct (ascii_dec c c) as [_ | H]; [apply IH | congruence].
Qed.

Lemma length_substring_le (n : nat) (s : string) :
  (String.length (substring 0 n s) <= String.length s)%nat.
Proof.
  revert n. induction s as [| c s IH]; intros [| n]; simpl; try lia.
  specialize (IH n). lia.
Qed.

(** The text shown is a prefix of the full text; a reset is pending
    only once the counter has reached the length of the text, and at
    most one is. *)
Lemma step_home (st : State) (e : Event) :
  (String.prefix (displayText st) fullText = true
   /\ (timeouts st <= 1)%nat
   /\ (timeouts st = 1%nat -> (String.length fullText <= i st)%nat)) ->
  String.prefix (displayText (step st e)) fullText = true
  /\ (timeouts (step st e) <= 1)%nat
  /\ (timeouts (step st e) = 1%nat ->
      (String.length fullText <= i (step st e))%nat).
Proof.
  intros (Hp & Ht & Hi). destruct st as [k d t].
  cbn [i displayText timeouts] in *.
  destruct e; cbn [step].
  - unfold tick, slice0. cbn [i displayText timeouts].
    split; [apply prefix_substring |].
    destruct (Nat.eqb_spec (S k) (String.length fullText)) as [E | E].
    + assert (t = 0%nat).
      { destruct t as [| [| t]]; [reflexivity | | lia].
        specialize (Hi eq_refl). lia. }
      subst t. split; [lia |]. intros _. lia.
    + split; [exact Ht |]. intros H. specialize (Hi H). lia.
  - unfold reset. cbn [timeouts]. destruct t as [| t].
    + cbn [i displayText timeouts]. split; [exact Hp |].
      split; [lia | intros H; discriminate H].
    + cbn [i displayText timeouts]. split; [reflexivity |].
      split; [lia |]. intros H. lia.
Qed.

End HomeFacts.

(** X26.  Through any sequence of interval ticks and timeouts of the
    typing animation, the text shown is a prefix of [Face. Train.
    Succeed.], and at most one reset is scheduled at a time. *)
Theorem typing_shows_prefix (evs : list HomePage.Event) :
  let st := HomePage.run HomePage.init evs in
  String.prefix (HomePage.displayText st) HomePage.fullText = true
  /\ (HomePage.timeouts st <= 1)%nat.
Proof.
  intros st.
  assert (H : String.prefix (HomePage.displayText st) HomePage.fullText
              = true
              /\ (HomePage.timeouts st <= 1)%nat
              /\ (HomePage.timeouts st = 1%nat ->
                  (String.length HomePage.fullText <= HomePage.i st)%nat)).
  { unfold st. clear st.
    assert (G : forall evs0 s0,
              (String.prefix (HomePage.displayText s0) HomePage.fullText
               = true
               /\ (HomePage.timeouts s0 <= 1)%nat
               /\ (HomePage.timeouts s0 = 1%nat ->
                   (String.length HomePage.fullText <= HomePage.i s0)%nat))
              ->
              String.prefix
                (HomePage.displayText (HomePage.run s0 evs0))
                HomePage.fullText = true
              /\ (HomePage.timeouts (HomePage.run s0 evs0) <= 1)%nat
              /\ (HomePage.timeouts (HomePage.run s0 evs0) = 1%nat ->
                  (String.length HomePage.fullText
                   <= HomePage.i (HomePage.run s0 evs0))%nat)).
    { induction evs0 as [| e evs0 IH]; intros s0 H0; simpl;
        [exact H0 | apply IH, step_home, H0]. }
    apply G. cbn [HomePage.init HomePage.displayText HomePage.timeouts].
    split; [reflexivity | split; [lia | intros H; discriminate H]]. }
  destruct H as (H1 & H2 & _). split; assumption.
Qed.
